(** * Voila: geospatial point selection, camera bounds, region colouring

    A shallow embedding of the parts of the Voila front end that its
    specification makes checkable statements about:

    - [SpatialWorker]  : src/frontend/src/workers/spatialWorker.ts and the
      manager that wraps it (utils/spatialWorkerManager);
    - [SpatialWorkerDouble] : the circle query of the same file and the
      manager's method for it, on binary64 numbers;
    - [StateColors]    : src/frontend/src/utils/stateColors.ts;
    - [SelectionSlice] : store/slices/selectionSlice;
    - [MapSlice]       : store/slices/mapSlice;
    - [ThreeScene]     : src/frontend/src/hooks/useThreeJS.ts (camera part).

    Number model.  A JavaScript [number] is an IEEE-754 double.
    - Where a statement rests on comparisons only, or on arithmetic whose
      rounding cannot change it, numbers are exact rationals ([Q]): the
      worker in [SpatialWorker], the two slices, the point buffers and
      the statistics.  These definitions stay executable.
    - The circle query multiplies and adds before it compares, and a point
      near the circle can fall on either side once the products are
      rounded.  What is said about the circle's boundary is therefore said
      in [SpatialWorkerDouble], on the kernel's binary64 numbers, whose
      operations round as the engine's do, infinities and NaN included.
    - The camera code takes square roots ([Math.sqrt], [Vector3.normalize]);
      its numbers are real numbers ([R]), and the world matrix of the
      camera is taken as current (a frame was rendered since the camera
      last changed).  What is stated there holds with a margin that
      rounding does not reach, or does not involve arithmetic at all.

    Names.  A string holds the UTF-8 bytes of a name, as the source file
    and a map file hold it; [codeUnits] gives the UTF-16 units that
    [split('')] and [charCodeAt] see.  [stateAdjacency] and the colour map
    are plain objects, so a lookup also finds what [Object.prototype]
    holds: [objectPrototype]. *)

From Stdlib Require Import ZArith QArith Qminmax Qreals Reals Lra Lia Psatz.
From Stdlib Require Floats.
From Stdlib Require Import String Ascii List DecimalString Sorted.
From stdpp Require Import gmap strings list sorting.
Import ListNotations.

(* ===================================================================== *)
(** * The spatial worker                                                  *)
(* ===================================================================== *)

Module SpatialWorker.

Local Open Scope Q_scope.

(** [interface CompanyPoint { ticker; x; y; z }] *)
Record CompanyPoint : Type := mkCompanyPoint
  { ticker : string; x : Q; y : Q; z : Q }.

(** [interface Point2D { x; y }]; the module keeps the field names. *)
Module Point2D.
Record t : Type := mk { x : Q; y : Q }.
End Point2D.

(** JavaScript [a < b] on numbers. *)
Definition Qlt_bool (a b : Q) : bool :=
  match a ?= b with Lt => true | _ => false end.

(** The test of the [if] inside [selectInRectangle]. *)
Definition inRectangle (min max : Point2D.t) (company : CompanyPoint) : bool :=
  Qle_bool (Point2D.x min) (x company) && Qle_bool (x company) (Point2D.x max) &&
  Qle_bool (Point2D.y min) (z company) && Qle_bool (z company) (Point2D.y max).

(** [for (const company of allCoords) if (test) selected.push(company)]:
    the loop shared by the three selections, with [selected] as the
    accumulator. *)
Definition pushIf (test : CompanyPoint -> bool)
    (selected : list CompanyPoint) (company : CompanyPoint) : list CompanyPoint :=
  if test company then selected ++ [company] else selected.

Definition selectLoop (test : CompanyPoint -> bool)
    (allCoords : list CompanyPoint) : list CompanyPoint :=
  fold_left (pushIf test) allCoords [].

Definition selectInRectangle (min max : Point2D.t)
    (allCoords : list CompanyPoint) : list CompanyPoint :=
  selectLoop (inRectangle min max) allCoords.

(** The test of the [if] inside [selectInCircle], given [radiusSq], in
    exact arithmetic.  A double computation can differ from it for a
    point within rounding error of the circle, so nothing is said with
    this definition about which side of the boundary a point falls on:
    that is [SpatialWorkerDouble.inCircle]. *)
Definition inCircle (center : Point2D.t) (radiusSq : Q) (company : CompanyPoint) : bool :=
  let dx := x company - Point2D.x center in
  let dz := z company - Point2D.y center in
  Qle_bool (dx * dx + dz * dz) radiusSq.

Definition selectInCircle (center : Point2D.t) (radius : Q)
    (allCoords : list CompanyPoint) : list CompanyPoint :=
  let radiusSq := radius * radius in
  selectLoop (inCircle center radiusSq) allCoords.

(** One iteration of the edge loop of [isPointInPolygon]: the edge from
    [polygon[j]] to [polygon[i]] toggles [inside] when the horizontal ray
    from the point crosses it.  The two comparisons of heights are exact
    in doubles as well, and [&&] does not evaluate the crossing when they
    agree; the abscissa of the crossing is exact here and rounded in the
    code, so only statements that the height test decides, or in which
    the abscissa is computed without rounding, are made with it. *)
Definition edgeStep (px py : Q) (vi vj : Point2D.t) (inside : bool) : bool :=
  let xi := Point2D.x vi in let yi := Point2D.y vi in
  let xj := Point2D.x vj in let yj := Point2D.y vj in
  let intersect :=
    xorb (Qlt_bool py yi) (Qlt_bool py yj)
    && Qlt_bool px ((xj - xi) * (py - yi) / (yj - yi) + xi) in
  if intersect then negb inside else inside.

(** [for (let i = 0, j = polygon.length - 1; i < polygon.length; j = i++)];
    [n] counts the iterations that remain. *)
Fixpoint edgeLoop (px py : Q) (polygon : list Point2D.t)
    (n i j : nat) (inside : bool) : bool :=
  match n with
  | O => inside
  | S n' =>
      match nth_error polygon i, nth_error polygon j with
      | Some vi, Some vj =>
          edgeLoop px py polygon n' (S i) i (edgeStep px py vi vj inside)
      | _, _ => inside
      end
  end.

Definition isPointInPolygon (point : Point2D.t) (polygon : list Point2D.t) : bool :=
  edgeLoop (Point2D.x point) (Point2D.y point) polygon
    (List.length polygon) 0 (List.length polygon - 1) false.

Definition selectInPolygon (polygonPoints : list Point2D.t)
    (allCoords : list CompanyPoint) : list CompanyPoint :=
  if (List.length polygonPoints <? 3)%nat then []
  else selectLoop
         (fun company => isPointInPolygon (Point2D.mk (x company) (z company)) polygonPoints)
         allCoords.

(** ** The manager in front of the worker

    [SpatialWorkerManager] holds [spatialAPI : Remote<SpatialWorkerAPI> | null];
    a remote call is a promise that resolves to a list or rejects.  A
    rejected call is [None]. *)
Record SpatialWorkerAPI : Type := mkAPI
  { api_selectInRectangle :
      Point2D.t -> Point2D.t -> list CompanyPoint -> option (list CompanyPoint);
    api_selectInCircle :
      Point2D.t -> Q -> list CompanyPoint -> option (list CompanyPoint);
    api_selectInPolygon :
      list Point2D.t -> list CompanyPoint -> option (list CompanyPoint) }.

(** The API that [Comlink.expose(spatialOps)] serves. *)
Definition spatialOps : SpatialWorkerAPI :=
  {| api_selectInRectangle := fun min max l => Some (selectInRectangle min max l);
     api_selectInCircle := fun c r l => Some (selectInCircle c r l);
     api_selectInPolygon := fun ps l => Some (selectInPolygon ps l) |}.

(** [if (!this.spatialAPI) return []; try { return await ... } catch { return [] }] *)
Definition manager_selectInCircle (spatialAPI : option SpatialWorkerAPI)
    (center : Point2D.t) (radius : Q) (allCoords : list CompanyPoint)
    : list CompanyPoint :=
  match spatialAPI with
  | None => []
  | Some remote =>
      match api_selectInCircle remote center radius allCoords with
      | Some result => result
      | None => []
      end
  end.

End SpatialWorker.

(* ===================================================================== *)
(** * Region colouring                                                    *)
(* ===================================================================== *)

Module StateColors.

(** The literal of [stateAdjacency], key by key. *)
Definition stateAdjacencyEntries : list (string * list string) :=
  [
    ("Alabama", ["Mississippi"; "Tennessee"; "Georgia"; "Florida"]);
    ("Alaska", []);
    ("Arizona", ["California"; "Nevada"; "Utah"; "Colorado"; "New Mexico"]);
    ("Arkansas", ["Missouri"; "Tennessee"; "Mississippi"; "Louisiana"; "Texas"; "Oklahoma"]);
    ("California", ["Oregon"; "Nevada"; "Arizona"]);
    ("Colorado", ["Wyoming"; "Nebraska"; "Kansas"; "Oklahoma"; "New Mexico"; "Arizona"; "Utah"]);
    ("Connecticut", ["Massachusetts"; "Rhode Island"; "New York"]);
    ("Delaware", ["Maryland"; "Pennsylvania"; "New Jersey"]);
    ("Florida", ["Georgia"; "Alabama"]);
    ("Georgia", ["Florida"; "Alabama"; "Tennessee"; "North Carolina"; "South Carolina"]);
    ("Hawaii", []);
    ("Idaho", ["Montana"; "Wyoming"; "Utah"; "Nevada"; "Oregon"; "Washington"]);
    ("Illinois", ["Wisconsin"; "Indiana"; "Kentucky"; "Missouri"; "Iowa"]);
    ("Indiana", ["Michigan"; "Ohio"; "Kentucky"; "Illinois"]);
    ("Iowa", ["Minnesota"; "Wisconsin"; "Illinois"; "Missouri"; "Nebraska"; "South Dakota"]);
    ("Kansas", ["Nebraska"; "Missouri"; "Oklahoma"; "Colorado"]);
    ("Kentucky", ["Indiana"; "Ohio"; "West Virginia"; "Virginia"; "Tennessee"; "Missouri"; "Illinois"]);
    ("Louisiana", ["Arkansas"; "Mississippi"; "Texas"]);
    ("Maine", ["New Hampshire"]);
    ("Maryland", ["Delaware"; "Pennsylvania"; "West Virginia"; "Virginia"]);
    ("Massachusetts", ["Rhode Island"; "Connecticut"; "New York"; "Vermont"; "New Hampshire"]);
    ("Michigan", ["Ohio"; "Indiana"; "Wisconsin"]);
    ("Minnesota", ["Wisconsin"; "Iowa"; "South Dakota"; "North Dakota"]);
    ("Mississippi", ["Louisiana"; "Arkansas"; "Tennessee"; "Alabama"]);
    ("Missouri", ["Iowa"; "Illinois"; "Kentucky"; "Tennessee"; "Arkansas"; "Oklahoma"; "Kansas"; "Nebraska"]);
    ("Montana", ["North Dakota"; "South Dakota"; "Wyoming"; "Idaho"]);
    ("Nebraska", ["South Dakota"; "Iowa"; "Missouri"; "Kansas"; "Colorado"; "Wyoming"]);
    ("Nevada", ["Idaho"; "Utah"; "Arizona"; "California"; "Oregon"]);
    ("New Hampshire", ["Maine"; "Massachusetts"; "Vermont"]);
    ("New Jersey", ["New York"; "Pennsylvania"; "Delaware"]);
    ("New Mexico", ["Colorado"; "Oklahoma"; "Texas"; "Arizona"]);
    ("New York", ["Vermont"; "Massachusetts"; "Connecticut"; "New Jersey"; "Pennsylvania"]);
    ("North Carolina", ["Virginia"; "Tennessee"; "Georgia"; "South Carolina"]);
    ("North Dakota", ["Minnesota"; "South Dakota"; "Montana"]);
    ("Ohio", ["Pennsylvania"; "West Virginia"; "Kentucky"; "Indiana"; "Michigan"]);
    ("Oklahoma", ["Kansas"; "Missouri"; "Arkansas"; "Texas"; "New Mexico"; "Colorado"]);
    ("Oregon", ["Washington"; "Idaho"; "Nevada"; "California"]);
    ("Pennsylvania", ["New York"; "New Jersey"; "Delaware"; "Maryland"; "West Virginia"; "Ohio"]);
    ("Rhode Island", ["Connecticut"; "Massachusetts"]);
    ("South Carolina", ["North Carolina"; "Georgia"]);
    ("South Dakota", ["North Dakota"; "Minnesota"; "Iowa"; "Nebraska"; "Wyoming"; "Montana"]);
    ("Tennessee", ["Kentucky"; "Virginia"; "North Carolina"; "Georgia"; "Alabama"; "Mississippi"; "Arkansas"; "Missouri"]);
    ("Texas", ["New Mexico"; "Oklahoma"; "Arkansas"; "Louisiana"]);
    ("Utah", ["Idaho"; "Wyoming"; "Colorado"; "Arizona"; "Nevada"]);
    ("Vermont", ["New York"; "New Hampshire"; "Massachusetts"]);
    ("Virginia", ["Maryland"; "West Virginia"; "Kentucky"; "Tennessee"; "North Carolina"]);
    ("Washington", ["Idaho"; "Oregon"]);
    ("West Virginia", ["Pennsylvania"; "Maryland"; "Virginia"; "Kentucky"; "Ohio"]);
    ("Wisconsin", ["Michigan"; "Minnesota"; "Iowa"; "Illinois"]);
    ("Wyoming", ["Montana"; "South Dakota"; "Nebraska"; "Colorado"; "Utah"; "Idaho"])
  ]%string.

(** [stateAdjacency : Record<string, string[]>] *)
Definition stateAdjacency : gmap string (list string) :=
  list_to_map stateAdjacencyEntries.

Definition stateColorPalette : list Z :=
  [ 0x3b82f6; 0xef4444; 0x10b981; 0xf59e0b; 0x8b5cf6;
    0x06b6d4; 0xf97316; 0xec4899; 0x6366f1; 0x84cc16 ]%Z.

(** ** Lookups on a plain object

    [stateAdjacency] and the colour map are object literals, so
    [obj[name]] finds an own property first and otherwise what
    [Object.prototype] holds under [name].  The table lists the property
    names of [Object.prototype], each with what [value?.length || 0]
    gives for its value: the arity of the function, and 0 for
    [__proto__], whose value, the prototype object, has no [length].
    None of the values is [undefined], none is an array. *)
Definition objectPrototype : list (string * nat) :=
  [ ("constructor", 1); ("__defineGetter__", 2); ("__defineSetter__", 2);
    ("hasOwnProperty", 1); ("__lookupGetter__", 1); ("__lookupSetter__", 1);
    ("isPrototypeOf", 1); ("propertyIsEnumerable", 1); ("toString", 0);
    ("valueOf", 0); ("__proto__", 0); ("toLocaleString", 0) ]%string%nat.

Definition inheritedLength (name : string) : option nat :=
  snd <$> List.find (fun entry => String.eqb (fst entry) name) objectPrototype.

(** [name] is a property of [Object.prototype]. *)
Definition inherited (name : string) : bool :=
  match inheritedLength name with Some _ => true | None => false end.

(** [stateAdjacency[a]?.length || 0] *)
Definition neighborCount (a : string) : nat :=
  match stateAdjacency !! a with
  | Some neighbors => List.length neighbors
  | None => default 0%nat (inheritedLength a)
  end.

(** [[...states].sort((a, b) => bNeighbors - aNeighbors)].  The sort of
    ECMAScript is stable, so its result is the one of this insertion sort:
    [a], which stood before every element of [l], goes before the first
    [b] with [bNeighbors - aNeighbors <= 0]. *)
Fixpoint insertByNeighbors (a : string) (l : list string) : list string :=
  match l with
  | [] => [a]
  | b :: l' =>
      if (neighborCount b <=? neighborCount a)%nat then a :: b :: l'
      else b :: insertByNeighbors a l'
  end.

Definition sortedStates (states : list string) : list string :=
  fold_right insertByNeighbors [] states.

(** [neighbors.forEach(neighbor => { if (stateColorMap[neighbor] !== undefined)
    usedColors.add(stateColorMap[neighbor]) })].  [usedColors] is read by
    [usedColors.has(colorIndex)] with a number only, so the set of the
    numbers in it is what counts; a neighbour found on [Object.prototype]
    alone would add a function, which is no number. *)
Definition addUsed (stateColorMap : gmap string nat)
    (usedColors : gset nat) (neighbor : string) : gset nat :=
  match stateColorMap !! neighbor with
  | Some c => {[ c ]} ∪ usedColors
  | None => usedColors
  end.

Definition usedColorsOf (stateColorMap : gmap string nat)
    (neighbors : list string) : gset nat :=
  fold_left (addUsed stateColorMap) neighbors ∅.

(** [while (usedColors.has(colorIndex) && colorIndex < palette.length) colorIndex++];
    [n] is [palette.length - colorIndex], the iterations that remain. *)
Fixpoint firstAvailable (usedColors : gset nat) (n colorIndex : nat) : nat :=
  match n with
  | O => colorIndex
  | S n' =>
      if decide (colorIndex ∈ usedColors)
      then firstAvailable usedColors n' (S colorIndex)
      else colorIndex
  end.

(** The body of [sortedStates.forEach(state => ...)] once [neighbors] is an
    array: the colours in use, the first free index, the assignment. *)
Definition colorWith (stateColorMap : gmap string nat) (state : string)
    (neighbors : list string) : gmap string nat :=
  let usedColors := usedColorsOf stateColorMap neighbors in
  let colorIndex := firstAvailable usedColors (List.length stateColorPalette) 0 in
  <[ state := colorIndex mod List.length stateColorPalette ]> stateColorMap.

(** The body of [sortedStates.forEach(state => ...)].
    [const neighbors = stateAdjacency[state] || []] is the state's row, or
    [[]] for a name that is no property at all; for a name of
    [Object.prototype] it is a function (or the prototype), which is
    truthy and has no [forEach]: [neighbors.forEach(...)] throws a
    [TypeError], here [None]. *)
Definition assignOne (stateColorMap : gmap string nat) (state : string)
    : option (gmap string nat) :=
  match stateAdjacency !! state with
  | Some neighbors => Some (colorWith stateColorMap state neighbors)
  | None =>
      if inherited state then None
      else Some (colorWith stateColorMap state [])
  end.

(** How a call ends. *)
Inductive Completion : Type := Returned | ThrewTypeError.

(** [sortedStates.forEach(...)] on the module-level [stateColorMap]: a
    throw ends the loop and leaves the map as the states before it made
    it. *)
Fixpoint forEachState (sorted : list string) (stateColorMap : gmap string nat)
    : gmap string nat * Completion :=
  match sorted with
  | [] => (stateColorMap, Returned)
  | state :: rest =>
      match assignOne stateColorMap state with
      | Some stateColorMap' => forEachState rest stateColorMap'
      | None => (stateColorMap, ThrewTypeError)
      end
  end.

(** A call of [assignStateColors]: it resets the module-level
    [stateColorMap], sorts, and runs the loop. *)
Definition callAssignStateColors (states : list string)
    : gmap string nat * Completion :=
  forEachState (sortedStates states) ∅.

(** The [stateColorMap] that a call of [assignStateColors] leaves, which
    is also what the call returns when it returns. *)
Definition assignStateColors (states : list string) : gmap string nat :=
  fst (callAssignStateColors states).

Definition completion (states : list string) : Completion :=
  snd (callAssignStateColors states).

(** [ToInt32] of ECMAScript, on an integral number. *)
Definition toInt32 (n : Z) : Z := ((n + 2 ^ 31) mod 2 ^ 32 - 2 ^ 31)%Z.

(** [acc << 5] *)
Definition shiftLeft5 (acc : Z) : Z := toInt32 (toInt32 acc * 32).

(** ** Names as UTF-16

    A string holds the UTF-8 bytes of a name.  [stateName.split('')] cuts
    the name into its UTF-16 code units and [char.charCodeAt(0)] reads
    one: a byte below 128 is its own unit, a sequence of two or three
    bytes is one unit, a sequence of four bytes is a surrogate pair.
    [utf8Step] reads one byte: [pending] continuation bytes are still to
    come for the code point begun in [codePoint]. *)
Definition toUnits (codePoint : Z) : list Z :=
  if (codePoint <? 65536)%Z then [codePoint]
  else [ (55296 + (codePoint - 65536) / 1024)%Z;
         (56320 + (codePoint - 65536) mod 1024)%Z ].

Record Utf8State : Type := mkUtf8State
  { units : list Z; pending : nat; codePoint : Z }.

Definition utf8Step (st : Utf8State) (byte : Z) : Utf8State :=
  match pending st with
  | O =>
      if (byte <? 128)%Z then mkUtf8State (units st ++ [byte]) 0 0
      else if (192 <=? byte)%Z && (byte <? 224)%Z
           then mkUtf8State (units st) 1 (byte - 192)
      else if (224 <=? byte)%Z && (byte <? 240)%Z
           then mkUtf8State (units st) 2 (byte - 224)
      else if (240 <=? byte)%Z && (byte <? 248)%Z
           then mkUtf8State (units st) 3 (byte - 240)
      else mkUtf8State (units st ++ [byte]) 0 0
  | S n =>
      let codePoint' := (codePoint st * 64 + byte mod 64)%Z in
      match n with
      | O => mkUtf8State (units st ++ toUnits codePoint') 0 0
      | S _ => mkUtf8State (units st) n codePoint'
      end
  end.

(** The code units of a name, [stateName.split('')] read through
    [charCodeAt(0)]. *)
Definition codeUnits (stateName : string) : list Z :=
  units (fold_left utf8Step
           (List.map (fun char => Z.of_nat (nat_of_ascii char))
                     (list_ascii_of_string stateName))
           (mkUtf8State [] 0 0)).

(** [(acc, char) => char.charCodeAt(0) + ((acc << 5) - acc)], for the
    code unit [code] of [char]. *)
Definition hashStep (acc : Z) (code : Z) : Z :=
  (code + (shiftLeft5 acc - acc))%Z.

Definition hashName (stateName : string) : Z :=
  fold_left hashStep (codeUnits stateName) 0%Z.

(** [Math.abs(hash % stateColorPalette.length)]; [%] truncates. *)
Definition fallbackIndex (stateName : string) : nat :=
  Z.to_nat (Z.abs (Z.rem (hashName stateName) (Z.of_nat (List.length stateColorPalette)))).

(** [getStateColor], reading the current [stateColorMap]; [None] is
    [undefined].  [stateColorMap[stateName] === undefined] fails for an
    own entry and for a name of [Object.prototype]; for the latter the
    palette is then indexed by a function, which gives [undefined]. *)
Definition getStateColor (stateColorMap : gmap string nat) (stateName : string)
    : option Z :=
  match stateColorMap !! stateName with
  | Some colorIndex => stateColorPalette !! colorIndex
  | None =>
      if inherited stateName then None
      else stateColorPalette !! fallbackIndex stateName
  end.


(** ** The loop where it does not throw *)

(** The loop body with the row looked up among the own properties only. *)
Definition greedyStep (stateColorMap : gmap string nat) (state : string)
    : gmap string nat :=
  colorWith stateColorMap state (default [] (stateAdjacency !! state)).

(** The body throws on [state]. *)
Definition throwsOn (state : string) : bool :=
  match stateAdjacency !! state with
  | Some _ => false
  | None => inherited state
  end.

(** ** Checks on the table and the invariant of the greedy pass *)

Fixpoint distinct (l : list string) : bool :=
  match l with
  | [] => true
  | a :: l' => negb (existsb (String.eqb a) l') && distinct l'
  end.

(** Some row of the table is [t]'s and lists [s]. *)
Definition listsBack (s t : string) : bool :=
  existsb (fun row => String.eqb (fst row) t && existsb (String.eqb s) (snd row))
          stateAdjacencyEntries.

(** One row of the table is well formed: fewer neighbours than palette
    colours, the state is not its own neighbour, and every neighbour has a
    row that lists the state back. *)
Definition rowOk (row : string * list string) : bool :=
  (List.length (snd row) <? List.length stateColorPalette)%nat
  && negb (existsb (String.eqb (fst row)) (snd row))
  && forallb (listsBack (fst row)) (snd row).

(** No coloured state shares its colour with a coloured state that its
    row lists. *)
Definition proper (m : gmap string nat) : Prop :=
  forall s t ns cs ct,
    stateAdjacency !! s = Some ns -> t ∈ ns ->
    m !! s = Some cs -> m !! t = Some ct -> cs <> ct.

End StateColors.

(* ===================================================================== *)
(** * Store types (types/state.ts, types/api.ts)                          *)
(* ===================================================================== *)

Module StateTypes.

(** ['pan' | 'rect' | 'circle' | 'polygon' | 'lasso' | 'state'] *)
Inductive SelectionMode : Type :=
  | mode_pan | mode_rect | mode_circle | mode_polygon | mode_lasso | mode_state.

#[global] Instance SelectionMode_eq_dec : EqDecision SelectionMode.
Proof. solve_decision. Defined.

Record Point : Type := mkPoint { point_x : Q; point_y : Q }.

Record BoundingBox : Type := mkBoundingBox
  { minX : Q; maxX : Q; minY : Q; maxY : Q }.

(** [interface SelectionGeometry]; an optional field is an [option]. *)
Record SelectionGeometry : Type := mkSelectionGeometry
  { type : SelectionMode;
    bounds : option BoundingBox;
    center : option Point;
    radius : option Q;
    points : option (list Point);
    state : option string;
    start : option Point;
    current : option Point }.

Record TopCompany : Type := mkTopCompany
  { top_ticker : string; top_name : string; latest_close : Q; sector : string }.

(** [interface RegionalStats] *)
Record RegionalStats : Type := mkRegionalStats
  { region_description : string;
    company_count : Q;
    avg_price : option Q;
    total_volume : option Q;
    top_companies : option (list TopCompany) }.

(** [interface SelectionHistoryEntry] *)
Record SelectionHistoryEntry : Type := mkEntry
  { id : string;
    timestamp : Z;
    companyIds : list string;
    stats : RegionalStats;
    mode : SelectionMode;
    geometry : SelectionGeometry }.

End StateTypes.

(* ===================================================================== *)
(** * The selection slice                                                 *)
(* ===================================================================== *)

Module SelectionSlice.
Import StateTypes.

(** [interface SelectionState] *)
Record SelectionState : Type := mkSelectionState
  { selectedCompanies : gset string;
    selectionStats : option RegionalStats;
    selectionHistory : list SelectionHistoryEntry;
    isSelecting : bool;
    selectionMode : SelectionMode }.

Definition initialState : SelectionState :=
  {| selectedCompanies := ∅;
     selectionStats := None;
     selectionHistory := [];
     isSelecting := false;
     selectionMode := mode_pan |}.

Definition setHistory (state : SelectionState)
    (history : list SelectionHistoryEntry) : SelectionState :=
  {| selectedCompanies := selectedCompanies state;
     selectionStats := selectionStats state;
     selectionHistory := history;
     isSelecting := isSelecting state;
     selectionMode := selectionMode state |}.

Definition setSelected (state : SelectionState) (selected : gset string)
    (stats : option RegionalStats) : SelectionState :=
  {| selectedCompanies := selected;
     selectionStats := stats;
     selectionHistory := selectionHistory state;
     isSelecting := isSelecting state;
     selectionMode := selectionMode state |}.

(** The payload of [addToSelectionHistory]. *)
Record HistoryPayload : Type := mkHistoryPayload
  { payload_companyIds : list string;
    payload_stats : RegionalStats;
    payload_mode : SelectionMode;
    payload_geometry : SelectionGeometry }.

(** [`selection_${Date.now()}`], for a clock reading in milliseconds. *)
Definition selectionId (now : Z) : string :=
  ("selection_" ++ NilZero.string_of_int (Z.to_int now))%string.

(** The [historyEntry] that [addToSelectionHistory] builds; the reducer
    reads the clock twice, once for the id and once for the timestamp. *)
Definition newEntry (payload : HistoryPayload) (nowId nowTimestamp : Z)
    : SelectionHistoryEntry :=
  {| id := selectionId nowId;
     timestamp := nowTimestamp;
     companyIds := payload_companyIds payload;
     stats := payload_stats payload;
     mode := payload_mode payload;
     geometry := payload_geometry payload |}.

(** [addToSelectionHistory] *)
Definition addToSelectionHistory (state : SelectionState)
    (payload : HistoryPayload) (nowId nowTimestamp : Z) : SelectionState :=
  let historyEntry := newEntry payload nowId nowTimestamp in
  (* unshift *)
  let history := historyEntry :: selectionHistory state in
  if (50 <? List.length history)%nat
  then setHistory state (firstn 50 history)   (* slice(0, 50) *)
  else setHistory state history.

(** [restoreSelectionFromHistory]: [find] returns the first match. *)
Definition restoreSelectionFromHistory (state : SelectionState)
    (historyId : string) : SelectionState :=
  match List.find (fun entry => String.eqb (id entry) historyId)
                  (selectionHistory state) with
  | Some historyEntry =>
      setSelected state (list_to_set (companyIds historyEntry))
                  (Some (stats historyEntry))
  | None => state
  end.

Definition removeFromSelectionHistory (state : SelectionState)
    (historyId : string) : SelectionState :=
  setHistory state
    (List.filter (fun entry => negb (String.eqb (id entry) historyId))
                 (selectionHistory state)).

Definition clearSelectionHistory (state : SelectionState) : SelectionState :=
  setHistory state [].

(** The reducers that leave the history alone.  [selectedCompanies] is a
    native [Set] in the store; the reducers that read or replace it are
    modelled as they run with immer's MapSet plugin enabled
    ([enableMapSet()]); without the plugin a reducer that reads the set
    from the draft throws instead.  The history reducers above do not
    read it. *)
Definition setSelectedCompanies (state : SelectionState) (payload : list string) :=
  setSelected state (list_to_set payload) (selectionStats state).

Definition addToSelection (state : SelectionState) (payload : list string) :=
  setSelected state (selectedCompanies state ∪ list_to_set payload)
              (selectionStats state).

Definition removeFromSelection (state : SelectionState) (payload : list string) :=
  setSelected state (selectedCompanies state ∖ list_to_set payload)
              (selectionStats state).

Definition toggleSelection (state : SelectionState) (payload : string) :=
  if decide (payload ∈ selectedCompanies state)
  then setSelected state (selectedCompanies state ∖ {[ payload ]}) (selectionStats state)
  else setSelected state (selectedCompanies state ∪ {[ payload ]}) (selectionStats state).

Definition clearSelection (state : SelectionState) :=
  setSelected state ∅ None.

Definition setSelectionStats (state : SelectionState) (payload : option RegionalStats) :=
  setSelected state (selectedCompanies state) payload.

Definition setIsSelecting (state : SelectionState) (payload : bool) :=
  {| selectedCompanies := selectedCompanies state;
     selectionStats := selectionStats state;
     selectionHistory := selectionHistory state;
     isSelecting := payload;
     selectionMode := selectionMode state |}.

(** The actions of the slice; the two clock readings of
    [addToSelectionHistory] travel with the action. *)
Inductive Action : Type :=
  | SetSelectedCompanies (payload : list string)
  | AddToSelection (payload : list string)
  | RemoveFromSelection (payload : list string)
  | ToggleSelection (payload : string)
  | ClearSelection
  | SetSelectionStats (payload : option RegionalStats)
  | SetIsSelecting (payload : bool)
  | AddToSelectionHistory (payload : HistoryPayload) (nowId nowTimestamp : Z)
  | RestoreSelectionFromHistory (historyId : string)
  | RemoveFromSelectionHistory (historyId : string)
  | ClearSelectionHistory.

Definition reducer (state : SelectionState) (action : Action) : SelectionState :=
  match action with
  | SetSelectedCompanies p => setSelectedCompanies state p
  | AddToSelection p => addToSelection state p
  | RemoveFromSelection p => removeFromSelection state p
  | ToggleSelection p => toggleSelection state p
  | ClearSelection => clearSelection state
  | SetSelectionStats p => setSelectionStats state p
  | SetIsSelecting p => setIsSelecting state p
  | AddToSelectionHistory p n1 n2 => addToSelectionHistory state p n1 n2
  | RestoreSelectionFromHistory h => restoreSelectionFromHistory state h
  | RemoveFromSelectionHistory h => removeFromSelectionHistory state h
  | ClearSelectionHistory => clearSelectionHistory state
  end.

Definition dispatchAll (state : SelectionState) (actions : list Action)
    : SelectionState :=
  fold_left reducer actions state.


End SelectionSlice.

(* ===================================================================== *)
(** * The map slice                                                       *)
(* ===================================================================== *)

Module MapSlice.
Import StateTypes.

Record XYZ : Type := mkXYZ { x : Q; y : Q; z : Q }.

Record Camera : Type := mkCamera
  { position : XYZ; zoom : Q; target : XYZ }.

Record Bounds : Type := mkBounds
  { north : Q; south : Q; east : Q; west : Q }.

Record LatLng : Type := mkLatLng { lat : Q; lng : Q }.

Record Viewport : Type := mkViewport
  { viewport_bounds : Bounds; viewport_center : LatLng; zoomLevel : Q }.

Inductive PerformanceMode : Type := high | medium | low.

(** [interface MapState] *)
Record MapState : Type := mkMapState
  { camera : Camera;
    viewport : Viewport;
    selectionMode : SelectionMode;
    selectionGeometry : option SelectionGeometry;
    lodLevel : Q;
    performanceMode : PerformanceMode }.

(** [setSelectionMode]: the two assignments of the reducer, in order. *)
Definition setSelectionMode (state : MapState) (payload : SelectionMode) : MapState :=
  let state1 :=
    {| camera := camera state;
       viewport := viewport state;
       selectionMode := payload;
       selectionGeometry := selectionGeometry state;
       lodLevel := lodLevel state;
       performanceMode := performanceMode state |} in
  if decide (payload = mode_pan)
  then {| camera := camera state1;
          viewport := viewport state1;
          selectionMode := selectionMode state1;
          selectionGeometry := None;
          lodLevel := lodLevel state1;
          performanceMode := performanceMode state1 |}
  else state1.

(** ** The other reducers of the slice *)

Local Open Scope Q_scope.

Definition initialState : MapState :=
  {| camera := mkCamera (mkXYZ 0 10 0) 1 (mkXYZ 0 0 0);
     viewport := mkViewport (mkBounds 49 25 (-66) (-125))
                            (mkLatLng (395 # 10) (-9835 # 100)) 4;
     selectionMode := mode_pan;
     selectionGeometry := None;
     lodLevel := 1;
     performanceMode := high |}.

Definition setCameraOf (state : MapState) (c : Camera) : MapState :=
  {| camera := c;
     viewport := viewport state;
     selectionMode := selectionMode state;
     selectionGeometry := selectionGeometry state;
     lodLevel := lodLevel state;
     performanceMode := performanceMode state |}.

Definition setViewportOf (state : MapState) (v : Viewport) : MapState :=
  {| camera := camera state;
     viewport := v;
     selectionMode := selectionMode state;
     selectionGeometry := selectionGeometry state;
     lodLevel := lodLevel state;
     performanceMode := performanceMode state |}.

Definition setLodOf (state : MapState) (lod : Q) : MapState :=
  {| camera := camera state;
     viewport := viewport state;
     selectionMode := selectionMode state;
     selectionGeometry := selectionGeometry state;
     lodLevel := lod;
     performanceMode := performanceMode state |}.

(** The payload of [updateCamera]: three optional fields. *)
Record CameraUpdate : Type := mkCameraUpdate
  { update_position : option XYZ;
    update_zoom : option Q;
    update_target : option XYZ }.

(** [updateCamera]: the three [if]s, in order. *)
Definition updateCamera (state : MapState) (payload : CameraUpdate) : MapState :=
  let c := camera state in
  let c := match update_position payload with
           | Some p => mkCamera p (zoom c) (target c)
           | None => c
           end in
  let c := match update_zoom payload with
           | Some zm => mkCamera (position c) zm (target c)
           | None => c
           end in
  let c := match update_target payload with
           | Some t => mkCamera (position c) (zoom c) t
           | None => c
           end in
  setCameraOf state c.

(** [Partial<MapState['viewport']>] *)
Record ViewportUpdate : Type := mkViewportUpdate
  { update_bounds : option Bounds;
    update_center : option LatLng;
    update_zoomLevel : option Q }.

(** [setViewport]: [{ ...state.viewport, ...action.payload }] *)
Definition setViewport (state : MapState) (payload : ViewportUpdate) : MapState :=
  let v := viewport state in
  setViewportOf state
    (mkViewport (default (viewport_bounds v) (update_bounds payload))
                (default (viewport_center v) (update_center payload))
                (default (zoomLevel v) (update_zoomLevel payload))).

Definition setSelectionGeometry (state : MapState)
    (payload : option SelectionGeometry) : MapState :=
  {| camera := camera state;
     viewport := viewport state;
     selectionMode := selectionMode state;
     selectionGeometry := payload;
     lodLevel := lodLevel state;
     performanceMode := performanceMode state |}.

(** [Math.max(0, Math.min(3, action.payload))] *)
Definition setLODLevel (state : MapState) (payload : Q) : MapState :=
  setLodOf state (Qmax 0 (Qmin 3 payload)).

(** [setPerformanceMode]: the mode, then the level of detail by [switch]. *)
Definition setPerformanceMode (state : MapState) (payload : PerformanceMode)
    : MapState :=
  {| camera := camera state;
     viewport := viewport state;
     selectionMode := selectionMode state;
     selectionGeometry := selectionGeometry state;
     lodLevel := match payload with high => 0 | medium => 1 | low => 2 end;
     performanceMode := payload |}.

(** [panCamera] *)
Definition panCamera (state : MapState) (deltaX deltaY : Q) : MapState :=
  let c := camera state in
  let panSpeed := (5 # 100) / zoom c in
  setCameraOf state
    (mkCamera (mkXYZ (x (position c) - deltaX * panSpeed)
                     (y (position c))
                     (z (position c) - deltaY * panSpeed))
              (zoom c) (target c)).

(** [updateViewportBounds] *)
Definition updateViewportBounds (state : MapState) (payload : Bounds) : MapState :=
  let v := viewport state in
  setViewportOf state (mkViewport payload (viewport_center v) (zoomLevel v)).

(** [resetCamera] *)
Definition resetCamera (state : MapState) : MapState :=
  let v := viewport state in
  {| camera := mkCamera (mkXYZ 0 10 0) 1 (mkXYZ 0 0 0);
     viewport := mkViewport (viewport_bounds v) (mkLatLng (395 # 10) (-9835 # 100)) 4;
     selectionMode := selectionMode state;
     selectionGeometry := selectionGeometry state;
     lodLevel := lodLevel state;
     performanceMode := performanceMode state |}.

(** [focusOnRegion]: [const { center, zoom = 6 } = action.payload] *)
Definition focusOnRegion (state : MapState) (center : LatLng) (zoom : option Q)
    : MapState :=
  let v := viewport state in
  setViewportOf state (mkViewport (viewport_bounds v) center (default 6 zoom)).

Section WithLog2.

(** [Math.log2], which the rationals do not have, stays a parameter. *)
Variable log2 : Q -> Q.

(** [zoomCamera] *)
Definition zoomCamera (state : MapState) (zoomFactor : Q) : MapState :=
  let c := camera state in
  let v := viewport state in
  let newZoom := Qmax (1 # 10) (Qmin 10 (zoom c * zoomFactor)) in
  {| camera := mkCamera (position c) newZoom (target c);
     viewport := mkViewport (viewport_bounds v) (viewport_center v)
                            (log2 newZoom + 4);
     selectionMode := selectionMode state;
     selectionGeometry := selectionGeometry state;
     lodLevel := lodLevel state;
     performanceMode := performanceMode state |}.

(** The actions of the slice. *)
Inductive Action : Type :=
  | UpdateCamera (payload : CameraUpdate)
  | SetViewport (payload : ViewportUpdate)
  | SetSelectionMode (payload : SelectionMode)
  | SetSelectionGeometry (payload : option SelectionGeometry)
  | SetLODLevel (payload : Q)
  | SetPerformanceMode (payload : PerformanceMode)
  | PanCamera (deltaX deltaY : Q)
  | ZoomCamera (zoomFactor : Q)
  | UpdateViewportBounds (payload : Bounds)
  | ResetCamera
  | FocusOnRegion (center : LatLng) (zoom : option Q).

Definition reducer (state : MapState) (action : Action) : MapState :=
  match action with
  | UpdateCamera p => updateCamera state p
  | SetViewport p => setViewport state p
  | SetSelectionMode p => setSelectionMode state p
  | SetSelectionGeometry p => setSelectionGeometry state p
  | SetLODLevel p => setLODLevel state p
  | SetPerformanceMode p => setPerformanceMode state p
  | PanCamera dx dy => panCamera state dx dy
  | ZoomCamera f => zoomCamera state f
  | UpdateViewportBounds p => updateViewportBounds state p
  | ResetCamera => resetCamera state
  | FocusOnRegion c zm => focusOnRegion state c zm
  end.

Definition dispatchAll (state : MapState) (actions : list Action) : MapState :=
  fold_left reducer actions state.

End WithLog2.

Definition lodInRange (state : MapState) : Prop :=
  0 <= lodLevel state <= 3.

Definition zoomInRange (state : MapState) : Prop :=
  (1 # 10) <= zoom (camera state) <= 10.

(** The actions that write only what [resetCamera] overwrites: the camera,
    the viewport centre and the zoom level. *)
Definition cameraAction (action : Action) : bool :=
  match action with
  | UpdateCamera _ | PanCamera _ _ | ZoomCamera _ | ResetCamera
  | FocusOnRegion _ _ => true
  | _ => false
  end.

(** The actions that store a zoom they are given, unclamped. *)
Definition writesZoom (action : Action) : bool :=
  match action with
  | UpdateCamera p => match update_zoom p with Some _ => true | None => false end
  | _ => false
  end.

End MapSlice.

(* ===================================================================== *)
(** * The three.js scene: camera pan and zoom                             *)
(* ===================================================================== *)

Module ThreeScene.

Local Open Scope R_scope.

(** ** The part of three.js the hook calls

    three.js is a dependency of the repository, not part of it.  What
    follows restates, over the reals, the library functions that
    [handlePan], [handleZoom] and [unprojectScreenCoords] call. *)
Module THREE.

Record Vector3 : Type := mkVector3 { x : R; y : R; z : R }.

Definition add (a b : Vector3) : Vector3 :=
  mkVector3 (x a + x b) (y a + y b) (z a + z b).

Definition sub (a b : Vector3) : Vector3 :=
  mkVector3 (x a - x b) (y a - y b) (z a - z b).

Definition multiplyScalar (a : Vector3) (s : R) : Vector3 :=
  mkVector3 (x a * s) (y a * s) (z a * s).

Definition length (a : Vector3) : R :=
  sqrt (x a * x a + y a * y a + z a * z a).

(** [divideScalar(this.length() || 1)] *)
Definition normalize (a : Vector3) : Vector3 :=
  let l := if Req_dec_T (length a) 0 then 1 else length a in
  multiplyScalar a (1 / l).

(** [MathUtils.clamp(value, min, max) = Math.max(min, Math.min(max, value))] *)
Definition clamp (value min max : R) : R := Rmax min (Rmin max value).

(** An [OrthographicCamera]: the properties the hook sets or reads, and
    the three columns of the rotation that [lookAt] stored (the local x,
    y and z axes in world coordinates).  The world matrix is taken to be
    current, as it is after each rendered frame. *)
Record OrthographicCamera : Type := mkCamera
  { position : Vector3;
    zoom : R;
    left : R; right : R; top : R; bottom : R;
    near : R; far : R;
    xAxis : Vector3; yAxis : Vector3; zAxis : Vector3 }.

(** [Vector3.unproject(camera)]: from normalized device coordinates back
    through the inverse of the orthographic projection of the zoomed view
    volume ([updateProjectionMatrix]), then from camera space to world
    space. *)
Definition unproject (v : Vector3) (camera : OrthographicCamera) : Vector3 :=
  let dx := (right camera - left camera) / (2 * zoom camera) in
  let dy := (top camera - bottom camera) / (2 * zoom camera) in
  let cx := (right camera + left camera) / 2 in
  let cy := (top camera + bottom camera) / 2 in
  let xc := cx + x v * dx in
  let yc := cy + y v * dy in
  let zc := - ((far camera - near camera) * z v + (far camera + near camera)) / 2 in
  add (position camera)
      (add (multiplyScalar (xAxis camera) xc)
           (add (multiplyScalar (yAxis camera) yc)
                (multiplyScalar (zAxis camera) zc))).

End THREE.

Import THREE.

(** [CONFIG] *)
Definition MIN_ZOOM : R := 8 / 10.
Definition MAX_ZOOM : R := 250.
Definition MAX_PAN_DISTANCE : R := 2000.

(** The container element: the two properties the hook reads. *)
Record Container : Type := mkContainer { clientWidth : R; clientHeight : R }.

(** [cameraRef.current] and [containerRef.current]; [None] before
    [initScene] has run. *)
Record Refs : Type := mkRefs
  { cameraRef : option OrthographicCamera;
    containerRef : option Container }.

Definition setPositionXZ (camera : OrthographicCamera) (newX newZ : R)
    : OrthographicCamera :=
  {| position := mkVector3 newX (y (position camera)) newZ;
     zoom := zoom camera;
     left := left camera; right := right camera;
     top := top camera; bottom := bottom camera;
     near := near camera; far := far camera;
     xAxis := xAxis camera; yAxis := yAxis camera; zAxis := zAxis camera |}.

Definition setZoom (camera : OrthographicCamera) (newZoom : R)
    : OrthographicCamera :=
  {| position := position camera;
     zoom := newZoom;
     left := left camera; right := right camera;
     top := top camera; bottom := bottom camera;
     near := near camera; far := far camera;
     xAxis := xAxis camera; yAxis := yAxis camera; zAxis := zAxis camera |}.

Definition setCamera (refs : Refs) (camera : OrthographicCamera) : Refs :=
  {| cameraRef := Some camera; containerRef := containerRef refs |}.

(** [Math.sqrt(newX * newX + newZ * newZ)] *)
Definition distanceFromCenter (newX newZ : R) : R :=
  sqrt (newX * newX + newZ * newZ).

(** [handlePan], over the reals: the scaled position lies on the bound
    exactly, where the doubles of the code can end a unit in the last
    place beyond it. *)
Definition handlePan (refs : Refs) (deltaX deltaY : R) : Refs :=
  match cameraRef refs with
  | None => refs
  | Some camera =>
      let panSpeed := 25 / 10 / zoom camera in
      let newX := x (position camera) - deltaX * panSpeed in
      let newZ := z (position camera) - deltaY * panSpeed in
      let maxDistance := MAX_PAN_DISTANCE in
      let distance := distanceFromCenter newX newZ in
      if Rle_dec distance maxDistance
      then setCamera refs (setPositionXZ camera newX newZ)
      else
        let scale := maxDistance / distance in
        setCamera refs (setPositionXZ camera (newX * scale) (newZ * scale))
  end.

(** The body of [unprojectScreenCoords] once camera and container are
    known: the screen point in normalized device coordinates at depth 0.5,
    unprojected; the ray from the camera through it; and the point where
    that ray meets the ground plane [y = 0].  The division by [y dir] is
    the total one of the reals: a ray parallel to the ground, for which
    the code computes an infinity, is outside what is proved with it. *)
Definition groundPoint (camera : OrthographicCamera) (container : Container)
    (screenX screenY : R) : Vector3 :=
  let vec := mkVector3 (screenX / clientWidth container * 2 - 1)
                       (- (screenY / clientHeight container) * 2 + 1)
                       (5 / 10) in
  let vec := unproject vec camera in
  let dir := normalize (sub vec (position camera)) in
  let distance := - y (position camera) / y dir in
  add (position camera) (multiplyScalar dir distance).

(** [unprojectScreenCoords] *)
Definition unprojectScreenCoords (refs : Refs) (screenX screenY : R)
    : option Vector3 :=
  match cameraRef refs, containerRef refs with
  | Some camera, Some container =>
      Some (groundPoint camera container screenX screenY)
  | _, _ => None
  end.

(** [camera.zoom = clamp(camera.zoom + delta * camera.zoom * 0.5, MIN_ZOOM,
    MAX_ZOOM)] *)
Definition zoomed (camera : OrthographicCamera) (delta : R) : OrthographicCamera :=
  setZoom camera
    (clamp (zoom camera + delta * zoom camera * (5 / 10)) MIN_ZOOM MAX_ZOOM).

(** [handleZoom] *)
Definition handleZoom (refs : Refs) (delta mouseX mouseY : R) : Refs :=
  match cameraRef refs, containerRef refs with
  | Some camera, Some container =>
      let worldPosBefore := unprojectScreenCoords refs mouseX mouseY in
      let camera := zoomed camera delta in
      let refs := setCamera refs camera in
      let worldPosAfter := unprojectScreenCoords refs mouseX mouseY in
      match worldPosBefore, worldPosAfter with
      | Some before, Some after =>
          let dx := x after - x before in
          let dz := z after - z before in
          setCamera refs
            (setPositionXZ camera (x (position camera) + dx)
                                  (z (position camera) + dz))
      | _, _ => refs
      end
  | _, _ => refs
  end.

(** The camera that [initScene] builds for a container:
    [new OrthographicCamera(1000 * aspect / -2, 1000 * aspect / 2, 500, -500,
    0.1, 1000)], [position.set(0, 50, 0)], [lookAt(0, 0, 0)], zoom 1.
    Looking straight down the up vector, [lookAt] tilts the view axis by
    0.0001 before it builds the rotation; [tilt] is the norm of the tilted
    axis. *)
Definition tilt : R := sqrt (1 + (1 / 10000) * (1 / 10000)).

Definition initCamera (container : Container) : OrthographicCamera :=
  let aspect := clientWidth container / clientHeight container in
  let frustumSize := 1000 in
  {| position := mkVector3 0 50 0;
     zoom := 1;
     left := frustumSize * aspect / - 2;
     right := frustumSize * aspect / 2;
     top := frustumSize / 2;
     bottom := frustumSize / - 2;
     near := 1 / 10;
     far := 1000;
     xAxis := mkVector3 1 0 0;
     yAxis := mkVector3 0 (1 / 10000 / tilt) (- 1 / tilt);
     zAxis := mkVector3 0 (1 / tilt) (1 / 10000 / tilt) |}.

Definition initRefs (container : Container) : Refs :=
  {| cameraRef := Some (initCamera container);
     containerRef := Some container |}.

(** Sequences of pan and zoom calls. *)
Inductive CameraOp : Type :=
  | Pan (deltaX deltaY : R)
  | Zoom (delta mouseX mouseY : R).

Definition applyOp (refs : Refs) (op : CameraOp) : Refs :=
  match op with
  | Pan deltaX deltaY => handlePan refs deltaX deltaY
  | Zoom delta mouseX mouseY => handleZoom refs delta mouseX mouseY
  end.

Definition applyOps (refs : Refs) (ops : list CameraOp) : Refs :=
  fold_left applyOp ops refs.

(** Distance of the camera from the origin in the ground (x/z) plane. *)
Definition panDistance (camera : OrthographicCamera) : R :=
  distanceFromCenter (x (position camera)) (z (position camera)).

(** A state in which the camera exists and its zoom is within the limits. *)
Definition zoomReady (refs : Refs) : Prop :=
  exists camera, cameraRef refs = Some camera /\
                 MIN_ZOOM <= zoom camera <= MAX_ZOOM.

(** The ray of [unprojectScreenCoords] before it is normalized:
    [vec.unproject(camera).sub(camera.position)]. *)
Definition viewRay (camera : OrthographicCamera) (container : Container)
    (screenX screenY : R) : Vector3 :=
  sub (unproject (mkVector3 (screenX / clientWidth container * 2 - 1)
                            (- (screenY / clientHeight container) * 2 + 1)
                            (5 / 10)) camera)
      (position camera).

(** [CONFIG.PARTICLE_SIZE] *)
Definition PARTICLE_SIZE : R := 15.

(** The point size that [animate] sets each frame:
    [clamp(PARTICLE_SIZE / Math.pow(camera.zoom, 0.05), 1, 30)]; for a
    positive zoom the power is [Rpower]. *)
Definition pointSize (camera : OrthographicCamera) : R :=
  clamp (PARTICLE_SIZE / Rpower (zoom camera) (5 / 100)) 1 30.

(** Two cameras that differ at most in ground position and zoom: same
    height, same view volume, same orientation. *)
Definition sameRig (c c' : OrthographicCamera) : Prop :=
  y (position c') = y (position c) /\
  left c' = left c /\ right c' = right c /\
  top c' = top c /\ bottom c' = bottom c /\
  near c' = near c /\ far c' = far c /\
  xAxis c' = xAxis c /\ yAxis c' = yAxis c /\ zAxis c' = zAxis c.

End ThreeScene.

(* ===================================================================== *)
(** * The circle query on binary64 numbers                                *)
(* ===================================================================== *)

Module SpatialWorkerDouble.
Import Floats.
Local Open Scope float_scope.

(** [interface CompanyPoint { ticker; x; y; z }], every number a double. *)
Record CompanyPoint : Type := mkCompanyPoint
  { ticker : string; x : float; y : float; z : float }.

Module Point2D.
Record t : Type := mk { x : float; y : float }.
End Point2D.

(** [for (const company of allCoords) if (test) selected.push(company)] *)
Definition pushIf (test : CompanyPoint -> bool)
    (selected : list CompanyPoint) (company : CompanyPoint) : list CompanyPoint :=
  if test company then selected ++ [company] else selected.

Definition selectLoop (test : CompanyPoint -> bool)
    (allCoords : list CompanyPoint) : list CompanyPoint :=
  fold_left (pushIf test) allCoords [].

(** The test of the [if] inside [selectInCircle], given [radiusSq]:
    [dx * dx + dz * dz <= radiusSq], two subtractions, two products and a
    sum, each rounded to the nearest double, and the comparison of
    IEEE-754 ([false] as soon as one side is NaN). *)
Definition inCircle (center : Point2D.t) (radiusSq : float) (company : CompanyPoint) : bool :=
  let dx := x company - Point2D.x center in
  let dz := z company - Point2D.y center in
  (dx * dx + dz * dz <=? radiusSq).

Definition selectInCircle (center : Point2D.t) (radius : float)
    (allCoords : list CompanyPoint) : list CompanyPoint :=
  let radiusSq := radius * radius in
  selectLoop (inCircle center radiusSq) allCoords.

(** ** The manager's method for the circle

    [this.spatialAPI.selectInCircle] is a remote call: a promise that
    resolves to a list or rejects ([None]). *)
Definition Remote : Type :=
  Point2D.t -> float -> list CompanyPoint -> option (list CompanyPoint).

(** The method that [Comlink.expose(spatialOps)] serves, when the call
    gets through. *)
Definition spatialOps_selectInCircle : Remote :=
  fun center radius allCoords => Some (selectInCircle center radius allCoords).

(** [if (!this.spatialAPI) return []; try { return await ... } catch { return [] }] *)
Definition manager_selectInCircle (spatialAPI : option Remote)
    (center : Point2D.t) (radius : float) (allCoords : list CompanyPoint)
    : list CompanyPoint :=
  match spatialAPI with
  | None => []
  | Some remote =>
      match remote center radius allCoords with
      | Some result => result
      | None => []
      end
  end.

(** ** The exact value of a double

    A finite double is [(-1)^s * m * 2^e]; [exact] gives that rational,
    and nothing for an infinity or NaN. *)
Definition exact (f : float) : option Q :=
  match Prim2SF f with
  | S754_zero _ => Some 0%Q
  | S754_finite s m e =>
      Some (inject_Z (if s then Z.neg m else Z.pos m) * Qpower 2 e)%Q
  | _ => None
  end.

(** [f] is the double whose exact value is [q]. *)
Definition hasValue (f : float) (q : Q) : Prop :=
  match exact f with
  | Some v => (v == q)%Q
  | None => False
  end.

(** The square of the Euclidean distance in the ground plane from a point
    to a centre, computed without rounding from the exact values. *)
Definition exactDistanceSq (p : CompanyPoint) (c : Point2D.t) : option Q :=
  match exact (x p), exact (z p), exact (Point2D.x c), exact (Point2D.y c) with
  | Some px, Some pz, Some cx, Some cy =>
      Some ((px - cx) * (px - cx) + (pz - cy) * (pz - cy))%Q
  | _, _, _, _ => None
  end.

(** The Euclidean distance from [p] to [c] is greater than [r] (for
    [r >= 0], by the squares), respectively at most [r]. *)
Definition fartherThan (p : CompanyPoint) (c : Point2D.t) (r : float) : Prop :=
  match exactDistanceSq p c, exact r with
  | Some d, Some rq => (0 <= rq)%Q /\ (rq * rq < d)%Q
  | _, _ => False
  end.

Definition within (p : CompanyPoint) (c : Point2D.t) (r : float) : Prop :=
  match exactDistanceSq p c, exact r with
  | Some d, Some rq => (0 <= rq)%Q /\ (d <= rq * rq)%Q
  | _, _ => False
  end.

End SpatialWorkerDouble.

(* ===================================================================== *)
(** * The point buffers (updatePoints in useThreeJS.ts)                   *)
(* ===================================================================== *)

Module PointCloud.
Import SpatialWorker.

Local Open Scope Q_scope.

(** [CONFIG.MAX_POINTS] *)
Definition MAX_POINTS : nat := 5000.

(** A [THREE.Color], by its three channels. *)
Record Color : Type := mkColor { r : Q; g : Q; b : Q }.

(** The fields of a [CompletedMarketRecord] that [updatePoints] reads;
    [latitude?] and [longitude?] are optional. *)
Record Company : Type := mkCompany
  { company_ticker : string;
    latitude : option Q;
    longitude : option Q }.

(** Truthiness of an optional number: [undefined] and [0] are falsy. *)
Definition truthy (n : option Q) : bool :=
  match n with
  | Some q => negb (Qeq_bool q 0)
  | None => false
  end.

(** [c => c.latitude && c.longitude] *)
Definition hasLocation (c : Company) : bool :=
  truthy (latitude c) && truthy (longitude c).

(** What the loop fills: the two attribute arrays, the two index maps,
    [projectedCoords], and the running [index]. *)
Record Buffers : Type := mkBuffers
  { positions : list Q;
    colors : list Q;
    indexToTicker : gmap nat string;
    tickerToIndex : gmap string nat;
    projectedCoords : list CompanyPoint;
    index : nat }.

Definition emptyBuffers : Buffers :=
  {| positions := []; colors := [];
     indexToTicker := ∅; tickerToIndex := ∅;
     projectedCoords := []; index := 0 |}.

Section UpdatePoints.

(** The d3 projection, [projection([longitude, latitude])]: a pair, or
    [null] outside its domain.  d3 is a dependency; it stays a parameter. *)
Variable projection : Q -> Q -> option (Q * Q).

(** [CONFIG.DEFAULT_COLOR], [SELECTION_COLOR], [HOVER_COLOR] *)
Variables DEFAULT_COLOR SELECTION_COLOR HOVER_COLOR : Color.

(** The two store values the callback closes over. *)
Variable hoveredId : option string.
Variable selectedCompanies : gset string.

(** [let color = DEFAULT; if (ticker === hoveredId) ... else if
    (selectedCompanies.has(ticker)) ...] *)
Definition pointColor (ticker : string) : Color :=
  if decide (Some ticker = hoveredId) then HOVER_COLOR
  else if decide (ticker ∈ selectedCompanies) then SELECTION_COLOR
  else DEFAULT_COLOR.

(** The body of [if (pos) { ... }], for [pos = [px, py]]. *)
Definition pushPoint (bufs : Buffers) (company : Company) (px py : Q) : Buffers :=
  let worldPos := mkCompanyPoint (company_ticker company) px (2 # 10) py in
  let color := pointColor (company_ticker company) in
  {| positions := positions bufs ++ [x worldPos; y worldPos; z worldPos];
     colors := colors bufs ++ [r color; g color; b color];
     indexToTicker := <[ index bufs := company_ticker company ]> (indexToTicker bufs);
     tickerToIndex := <[ company_ticker company := index bufs ]> (tickerToIndex bufs);
     projectedCoords := projectedCoords bufs ++ [worldPos];
     index := S (index bufs) |}.

(** [for (const company of validCompanies) { if (index >= MAX_POINTS) break;
    ... }].  The companies of the list passed the filter, so both
    coordinates are there; a company without them would be skipped. *)
Fixpoint pointLoop (validCompanies : list Company) (bufs : Buffers) : Buffers :=
  match validCompanies with
  | [] => bufs
  | company :: rest =>
      if (MAX_POINTS <=? index bufs)%nat then bufs
      else
        match longitude company, latitude company with
        | Some lon, Some lat =>
            match projection lon lat with
            | Some (px, py) => pointLoop rest (pushPoint bufs company px py)
            | None => pointLoop rest bufs
            end
        | _, _ => pointLoop rest bufs
        end
  end.

(** [updatePoints], for the companies in the order of
    [Object.values(companies)]; the buffers are rebuilt from empty, and the
    final [index] is the [pointCount] it dispatches. *)
Definition updatePoints (companiesArray : list Company) : Buffers :=
  let validCompanies := List.filter hasLocation companiesArray in
  pointLoop validCompanies emptyBuffers.

(** The point a company becomes, if it has one. *)
Definition toPoint (company : Company) : option CompanyPoint :=
  match longitude company, latitude company with
  | Some lon, Some lat =>
      match projection lon lat with
      | Some (px, py) => Some (mkCompanyPoint (company_ticker company) px (2 # 10) py)
      | None => None
      end
  | _, _ => None
  end.

(** The buffers agree with [projectedCoords]: three positions and three
    colour channels per point, in order; [indexToTicker] maps each index
    to the ticker of its point and nothing else; [tickerToIndex] maps the
    ticker of every point to the index of a point with that ticker. *)
Definition consistent (bufs : Buffers) : Prop :=
  index bufs = List.length (projectedCoords bufs) /\
  positions bufs
    = flat_map (fun p => [x p; y p; z p]) (projectedCoords bufs) /\
  colors bufs
    = flat_map (fun p => let c := pointColor (ticker p) in [r c; g c; b c])
               (projectedCoords bufs) /\
  (forall i, indexToTicker bufs !! i = ticker <$> projectedCoords bufs !! i) /\
  (forall t i, tickerToIndex bufs !! t = Some i ->
               ticker <$> projectedCoords bufs !! i = Some t) /\
  (forall p, p ∈ projectedCoords bufs ->
             is_Some (tickerToIndex bufs !! ticker p)).

End UpdatePoints.

End PointCloud.

(* ===================================================================== *)
(** * From a drag to a query (performSelection in MapRenderer.tsx,
      performSpatialSelection in useSelection.ts)                         *)
(* ===================================================================== *)

Module MapRenderer.
Import SpatialWorker.

(** [case 'rect']: the two corners built from the world points under the
    start and the end of the drag, [min] from [Math.min] and [max] from
    [Math.max] of their [x] and of their [z]. *)
Definition rectMin (startX startZ endX endZ : Q) : Point2D.t :=
  Point2D.mk (Qmin startX endX) (Qmin startZ endZ).

Definition rectMax (startX startZ endX endZ : Q) : Point2D.t :=
  Point2D.mk (Qmax startX endX) (Qmax startZ endZ).




(** The manager's other two methods, as [manager_selectInCircle]. *)
Definition manager_selectInRectangle (spatialAPI : option SpatialWorkerAPI)
    (min max : Point2D.t) (allCoords : list CompanyPoint) : list CompanyPoint :=
  match spatialAPI with
  | None => []
  | Some remote =>
      match api_selectInRectangle remote min max allCoords with
      | Some result => result
      | None => []
      end
  end.

Definition manager_selectInPolygon (spatialAPI : option SpatialWorkerAPI)
    (polygonPoints : list Point2D.t) (allCoords : list CompanyPoint)
    : list CompanyPoint :=
  match spatialAPI with
  | None => []
  | Some remote =>
      match api_selectInPolygon remote polygonPoints allCoords with
      | Some result => result
      | None => []
      end
  end.

(** The [{ type, geometry }] that [performSpatialSelection] is given. *)
Inductive SelectionRequest : Type :=
  | RectangleRequest (min max : Point2D.t)
  | CircleRequest (center : Point2D.t) (radius : Q)
  | PolygonRequest (points : list Point2D.t).

(** [mutationFn]: no call for an empty coordinate list, else the manager
    method of the request's type. *)
Definition mutationFn (spatialAPI : option SpatialWorkerAPI)
    (request : SelectionRequest) (allCoords : list CompanyPoint)
    : list CompanyPoint :=
  match allCoords with
  | [] => []
  | _ :: _ =>
      match request with
      | RectangleRequest min max =>
          manager_selectInRectangle spatialAPI min max allCoords
      | CircleRequest center radius =>
          manager_selectInCircle spatialAPI center radius allCoords
      | PolygonRequest points =>
          manager_selectInPolygon spatialAPI points allCoords
      end
  end.

(** What the worker itself answers to a request. *)
Definition workerAnswer (request : SelectionRequest)
    (allCoords : list CompanyPoint) : list CompanyPoint :=
  match request with
  | RectangleRequest min max => selectInRectangle min max allCoords
  | CircleRequest center radius => selectInCircle center radius allCoords
  | PolygonRequest points => selectInPolygon points allCoords
  end.

(** [onSuccess]: [result.map(company => company.ticker)], the payload of
    [selection/setSelectedCompanies]. *)
Definition selectedTickers (result : list CompanyPoint) : list string :=
  List.map ticker result.

End MapRenderer.

(* ===================================================================== *)
(** * Selection statistics (calculateSelectionStats in useSelection.ts)   *)
(* ===================================================================== *)

Module SelectionStats.

Local Open Scope Q_scope.

(** The fields of a [CompletedMarketRecord] that the function reads.
    [latest_close] is tested with [typeof ... === 'number'] and
    [latest_volume] with [|| 0], so both may be missing. *)
Record MarketRecord : Type := mkMarketRecord
  { ticker : string;
    company_name : string;
    latest_close : option Q;
    latest_volume : option Q }.

(** [c && typeof c.latest_close === 'number'] *)
Definition hasClose (c : MarketRecord) : bool :=
  match latest_close c with Some _ => true | None => false end.

(** [company.latest_close], for a record that passed the filter. *)
Definition close (c : MarketRecord) : Q := default 0 (latest_close c).

(** [company.latest_volume || 0] *)
Definition volume (c : MarketRecord) : Q := default 0 (latest_volume c).

(** [validCompanies.forEach(...)]: the two running sums, in exact
    arithmetic. *)
Definition totalPrice (validCompanies : list MarketRecord) : Q :=
  fold_left (fun total company => total + close company) validCompanies 0.

Definition totalVolume (validCompanies : list MarketRecord) : Q :=
  fold_left (fun total company => total + volume company) validCompanies 0.

(** [[...validCompanies].sort((a, b) => b.latest_close - a.latest_close)]:
    the stable sort, as an insertion sort; [a], which stood before every
    element of [l], goes before the first [b] with
    [b.latest_close - a.latest_close <= 0]. *)
Fixpoint insertByClose (a : MarketRecord) (l : list MarketRecord)
    : list MarketRecord :=
  match l with
  | [] => [a]
  | b :: l' =>
      if Qle_bool (close b) (close a) then a :: b :: l'
      else b :: insertByClose a l'
  end.

Definition sortByClose (l : list MarketRecord) : list MarketRecord :=
  fold_right insertByClose [] l.

(** [.map(company => ({ ticker, name: company_name, latest_close,
    sector: 'N/A' }))] *)
Definition toTopCompany (company : MarketRecord) : StateTypes.TopCompany :=
  StateTypes.mkTopCompany (ticker company) (company_name company)
                          (close company) "N/A".

(** [calculateSelectionStats] *)
Definition calculateSelectionStats (companies : list MarketRecord)
    : StateTypes.RegionalStats :=
  match companies with
  | [] =>
      StateTypes.mkRegionalStats "Selection" 0 (Some 0) (Some 0) (Some [])
  | _ :: _ =>
      let validCompanies := List.filter hasClose companies in
      let avgPrice :=
        match validCompanies with
        | [] => 0
        | _ :: _ =>
            totalPrice validCompanies
            / inject_Z (Z.of_nat (List.length validCompanies))
        end in
      let topCompanies :=
        List.map toTopCompany (firstn 5 (sortByClose validCompanies)) in
      StateTypes.mkRegionalStats
        "Custom Selection"
        (inject_Z (Z.of_nat (List.length companies)))
        (Some avgPrice)
        (Some (totalVolume validCompanies))
        (Some topCompanies)
  end.

(** [a] does not close below [b]. *)
Definition closesAbove (a b : MarketRecord) : Prop := close b <= close a.

End SelectionStats.

(* ===================================================================== *)
(** * Sample inputs                                                       *)
(* ===================================================================== *)

Module Samples.

(** Two projected points on the ground plane ([y = 0.2]). *)
Definition pointA : SpatialWorker.CompanyPoint :=
  SpatialWorker.mkCompanyPoint "AAPL" 3 (2 # 10) 4.

Definition pointB : SpatialWorker.CompanyPoint :=
  SpatialWorker.mkCompanyPoint "MSFT" 10 (2 # 10) (-7).

Definition somePoints : list SpatialWorker.CompanyPoint := [pointA; pointB].

Definition origin2D : SpatialWorker.Point2D.t := SpatialWorker.Point2D.mk 0 0.

(** A "polygon" of two vertices. *)
Definition twoVertices : list SpatialWorker.Point2D.t :=
  [SpatialWorker.Point2D.mk 0 0; SpatialWorker.Point2D.mk 20 20].

(** The names of a map file: the fifty states of the table and the
    federal district, which has no row in the table. *)
Definition featureNames : list string :=
  List.map fst StateColors.stateAdjacencyEntries ++ ["District of Columbia"%string].

Definition threeStates : list string := ["Alabama"; "Florida"; "Georgia"]%string.

(** A square container of 1000 by 1000 pixels. *)
Definition squareContainer : ThreeScene.Container :=
  ThreeScene.mkContainer 1000 1000.

(** A square of side 10 with a corner at the origin. *)
Definition squarePolygon : list SpatialWorker.Point2D.t :=
  [SpatialWorker.Point2D.mk 0 0; SpatialWorker.Point2D.mk 10 0;
   SpatialWorker.Point2D.mk 10 10; SpatialWorker.Point2D.mk 0 10].

(** A history payload, and [n] additions at clock readings 1 .. n. *)
Definition somePayload : SelectionSlice.HistoryPayload :=
  SelectionSlice.mkHistoryPayload ["AAPL"%string]
    (StateTypes.mkRegionalStats "Custom Selection" 1 None None None)
    StateTypes.mode_rect
    (StateTypes.mkSelectionGeometry StateTypes.mode_rect
       None None None None None None None).

Definition additions (n : nat) : list SelectionSlice.Action :=
  List.map (fun k => SelectionSlice.AddToSelectionHistory somePayload
                       (Z.of_nat k) (Z.of_nat k))
           (seq 1 n).

(** Two companies with a location and one on the equator; a projection
    that accepts every coordinate and keeps it. *)
Definition someCompanies : list PointCloud.Company :=
  [PointCloud.mkCompany "AAPL" (Some 3%Q) (Some 4%Q);
   PointCloud.mkCompany "ZERO" (Some 0%Q) (Some 5%Q);
   PointCloud.mkCompany "MSFT" (Some 10%Q) (Some (-7)%Q)].

Definition plainProjection (lon lat : Q) : option (Q * Q) := Some (lon, lat).

Definition white : PointCloud.Color := PointCloud.mkColor 1 1 1.
Definition green : PointCloud.Color := PointCloud.mkColor 0 1 0.
Definition orange : PointCloud.Color := PointCloud.mkColor 1 (1 # 2)%Q 0.

(** Market records with closes 10 and 20, and one without a close. *)
Definition someRecords : list SelectionStats.MarketRecord :=
  [SelectionStats.mkMarketRecord "AAPL" "Apple" (Some 10%Q) (Some 100%Q);
   SelectionStats.mkMarketRecord "NONE" "Nameless" None None;
   SelectionStats.mkMarketRecord "MSFT" "Microsoft" (Some 20%Q) None].

(** Camera actions of the map slice. *)
Definition someCameraActions : list MapSlice.Action :=
  [MapSlice.PanCamera 3 4; MapSlice.ZoomCamera 100; MapSlice.ResetCamera;
   MapSlice.ZoomCamera (1 # 1000)%Q].

End Samples.

(** Sample inputs of the circle query, as doubles. *)
Module DoubleSamples.
Import Floats SpatialWorkerDouble.
Local Open Scope float_scope.

(** The height of every projected point, the double nearest to 0.2. *)
Definition groundY : float := 0x1.999999999999ap-3.

Definition pointA : CompanyPoint := mkCompanyPoint "AAPL" 3 groundY 4.
Definition pointB : CompanyPoint := mkCompanyPoint "MSFT" 10 groundY (-7).
Definition somePoints : list CompanyPoint := [pointA; pointB].
Definition origin2D : Point2D.t := Point2D.mk 0 0.

(** A point one unit off the axis, at [(2^27 + 1, 1)], and the radius
    [2^27 + 1]: the point lies outside the circle of that radius. *)
Definition farPoint : CompanyPoint := mkCompanyPoint "FAR" 134217729 groundY 1.
Definition farRadius : float := 134217729.

(** A multiple of the triple (20, 21, 29): the point lies on the circle
    of radius [29 * 16777231]. *)
Definition rimPoint : CompanyPoint :=
  mkCompanyPoint "RIM" 335544620 groundY 352321851.
Definition rimRadius : float := 486539699.

(** The doubles nearest to 2.4, 4.5 and 5.1: in decimals the point
    (2.4, 4.5) is on the circle of radius 5.1; the doubles are not. *)
Definition nearPoint : CompanyPoint :=
  mkCompanyPoint "NEAR" 0x1.3333333333333p+1 groundY 0x1.2p+2.
Definition nearRadius : float := 0x1.4666666666666p+2.

End DoubleSamples.

(* ===================================================================== *)
(** * Properties of the spatial worker                                    *)
(* ===================================================================== *)

Section SpatialWorkerProperties.
Import SpatialWorker.

(** The push loop is a filter: it keeps, in order, the points that pass. *)
Lemma fold_pushIf (test : CompanyPoint -> bool) (l acc : list CompanyPoint) :
  fold_left (pushIf test) l acc = acc ++ List.filter test l.
Proof.
  revert acc. induction l as [|c l IH]; intros acc; simpl.
  - now rewrite app_nil_r.
  - rewrite IH. unfold pushIf. destruct (test c); simpl.
    + now rewrite <- app_assoc.
    + reflexivity.
Qed.

Lemma selectLoop_filter (test : CompanyPoint -> bool) (l : list CompanyPoint) :
  selectLoop test l = List.filter test l.
Proof. unfold selectLoop. now rewrite fold_pushIf. Qed.

Lemma inRectangle_true (min max : Point2D.t) (p : CompanyPoint) :
  inRectangle min max p = true <->
  (Point2D.x min <= x p <= Point2D.x max /\
   Point2D.y min <= z p <= Point2D.y max)%Q.
Proof.
  unfold inRectangle. rewrite !Bool.andb_true_iff, !Qle_bool_iff. tauto.
Qed.

(** C1.  A point is in the result of [selectInRectangle] exactly when it is
    in the input list and lies inside the rectangle, all four edges
    included: [min.x <= p.x <= max.x] and [min.y <= p.z <= max.y]. *)
Theorem selectInRectangle_inclusive
    (min max : Point2D.t) (allCoords : list CompanyPoint) (p : CompanyPoint) :
  In p (selectInRectangle min max allCoords) <->
  In p allCoords /\
  (Point2D.x min <= x p <= Point2D.x max /\
   Point2D.y min <= z p <= Point2D.y max)%Q.
Proof.
  unfold selectInRectangle. rewrite selectLoop_filter, filter_In.
  now rewrite inRectangle_true.
Qed.

(** C3.  A polygon of fewer than three vertices selects nothing, whatever
    the points; the guard returns before any vertex is read. *)
Theorem selectInPolygon_degenerate
    (polygonPoints : list Point2D.t) (allCoords : list CompanyPoint) :
  (List.length polygonPoints < 3)%nat ->
  selectInPolygon polygonPoints allCoords = [].
Proof.
  intros Hlen. unfold selectInPolygon.
  apply Nat.ltb_lt in Hlen. now rewrite Hlen.
Qed.

End SpatialWorkerProperties.

Section SpatialWorkerInstances.
Import SpatialWorker Samples.

(** The rectangle with corners (0, 0) and (3, 4) has [pointA] on its
    corner and selects it; [pointB] lies outside. *)
Example selectInRectangle_corner :
  selectInRectangle origin2D (Point2D.mk 3 4) somePoints = [pointA].
Proof. reflexivity. Qed.

(** The even-odd test on the square: (3, 4) is inside, (10, -7) is not. *)
Example selectInPolygon_square :
  selectInPolygon squarePolygon somePoints = [pointA].
Proof. reflexivity. Qed.

Lemma selectInPolygon_degenerate_witness :
  (List.length twoVertices < 3)%nat /\
  selectInPolygon twoVertices somePoints = [].
Proof.
  assert (H : (List.length twoVertices < 3)%nat) by (simpl; lia).
  split; [exact H|].
  exact (selectInPolygon_degenerate twoVertices somePoints H).
Defined.

End SpatialWorkerInstances.

(* ===================================================================== *)
(** * The circle query on binary64 numbers: properties                    *)
(* ===================================================================== *)

Section SpatialWorkerDoubleProperties.
Import Floats SpatialWorkerDouble.
Local Open Scope float_scope.

Lemma double_fold_pushIf (test : CompanyPoint -> bool) (l acc : list CompanyPoint) :
  fold_left (pushIf test) l acc = acc ++ List.filter test l.
Proof.
  revert acc. induction l as [|c l IH]; intros acc; cbn [fold_left List.filter].
  - now rewrite app_nil_r.
  - rewrite IH. unfold pushIf. destruct (test c); cbn [app].
    + now rewrite <- app_assoc.
    + reflexivity.
Qed.

Lemma double_selectLoop_filter (test : CompanyPoint -> bool) (l : list CompanyPoint) :
  selectLoop test l = List.filter test l.
Proof. unfold selectLoop. now rewrite double_fold_pushIf. Qed.

(** ** Facts of binary64 arithmetic, from the specification of the
       primitive operations *)

(** A double that is neither NaN nor an infinity is a zero or
    [(-1)^s * m * 2^e]. *)
Lemma Prim2SF_is_finite (f : float) :
  is_finite f = true ->
  (exists s, Prim2SF f = S754_zero s) \/
  (exists s m e, Prim2SF f = S754_finite s m e).
Proof.
  unfold is_finite, Prim2SF. intros H.
  apply Bool.negb_true_iff, Bool.orb_false_iff in H. destruct H as [Hn Hi].
  rewrite Hn. destruct (is_zero f); [left; eauto|]. rewrite Hi.
  destruct (Z.frexp f) as [r e].
  destruct (shr_fexp _ _ _ _ _) as [shr e'].
  destruct (shr_m shr); [left|right|left]; eauto.
Qed.

(** [f - f] is [+0] for every finite [f]: the difference is exact. *)
Lemma sub_diag (f : float) : is_finite f = true -> f - f = 0.
Proof.
  intros H. apply Prim2SF_inj. rewrite sub_spec.
  destruct (Prim2SF_is_finite f H) as [[s ->]|(s & m & e & ->)].
  - destruct s; reflexivity.
  - unfold SF64sub, SFsub. rewrite Z.sub_diag. reflexivity.
Qed.

(** The sign is lost in a square, bit for bit. *)
Lemma mul_opp_opp (r : float) : (- r) * (- r) = r * r.
Proof.
  apply Prim2SF_inj. rewrite !mul_spec, opp_spec.
  destruct (Prim2SF r) as [s|s| |s m e]; try destruct s; reflexivity.
Qed.

(** C2, as the code has it.  A point is in the result of [selectInCircle]
    exactly when it is in the input list and the squared distance as the
    code computes it, [dx * dx + dz * dz] with every operation rounded to
    a double, is at most the double [radius * radius]; and a circle of
    radius zero centred on a point of the list whose coordinates are
    finite selects that point. *)
Theorem selectInCircle_distance
    (center : Point2D.t) (radius : float) (allCoords : list CompanyPoint)
    (p : CompanyPoint) :
  (In p (selectInCircle center radius allCoords) <->
   In p allCoords /\
   ((x p - Point2D.x center) * (x p - Point2D.x center)
    + (z p - Point2D.y center) * (z p - Point2D.y center)
    <=? radius * radius) = true) /\
  (is_finite (x p) = true -> is_finite (z p) = true -> In p allCoords ->
   In p (selectInCircle (Point2D.mk (x p) (z p)) 0 allCoords)).
Proof.
  unfold selectInCircle. rewrite !double_selectLoop_filter, !filter_In.
  split; [reflexivity|].
  intros Hx Hz Hin. split; [exact Hin|].
  unfold inCircle. cbn [Point2D.x Point2D.y].
  rewrite (sub_diag _ Hx), (sub_diag _ Hz). reflexivity.
Qed.

(** C8, as the code has it.  The radius is squared, so its sign is lost:
    the worker selects with [radius] what it selects with [- radius].
    The manager returns that list when the worker is there and the call
    gets through, and the empty list when there is no worker or the call
    is rejected; it never throws. *)
Theorem selectInCircle_negative_radius
    (center : Point2D.t) (radius : float) (allCoords : list CompanyPoint) :
  selectInCircle center radius allCoords
    = selectInCircle center (- radius) allCoords /\
  manager_selectInCircle (Some spatialOps_selectInCircle) center radius allCoords
    = selectInCircle center (- radius) allCoords /\
  (forall (remote : Remote) (result : list CompanyPoint),
     remote center radius allCoords = Some result ->
     manager_selectInCircle (Some remote) center radius allCoords = result) /\
  manager_selectInCircle None center radius allCoords = [] /\
  (forall remote : Remote,
     remote center radius allCoords = None ->
     manager_selectInCircle (Some remote) center radius allCoords = []).
Proof.
  assert (Heq : selectInCircle center radius allCoords
                = selectInCircle center (- radius) allCoords).
  { unfold selectInCircle. now rewrite mul_opp_opp. }
  split; [exact Heq|]. split; [exact Heq|].
  split; [|split; [reflexivity|]].
  - intros remote result Hres. unfold manager_selectInCircle. now rewrite Hres.
  - intros remote Hrej. unfold manager_selectInCircle. now rewrite Hrej.
Qed.

End SpatialWorkerDoubleProperties.

Section SpatialWorkerDoubleInstances.
Import Floats SpatialWorkerDouble DoubleSamples.
Local Open Scope float_scope.

(** C2 as stated fails on doubles, in both directions.  With radius
    [2^27 + 1] the point [(2^27 + 1, 1)], farther from the centre than
    the radius, is selected: [radius * radius] and the sum both round to
    [2^54 + 2^28].  With radius [29 * 16777231] the point
    [(20 * 16777231, 21 * 16777231)], at that very distance, is not
    selected.  And at everyday magnitudes the double nearest (2.4, 4.5)
    is selected by the double nearest 5.1 although it lies outside. *)
Lemma selectInCircle_rounds :
  (hasValue (x farPoint) 134217729 /\ hasValue (z farPoint) 1 /\
   hasValue farRadius 134217729 /\
   fartherThan farPoint origin2D farRadius /\
   In farPoint (selectInCircle origin2D farRadius [farPoint])) /\
  (hasValue (x rimPoint) 335544620 /\ hasValue (z rimPoint) 352321851 /\
   hasValue rimRadius 486539699 /\
   within rimPoint origin2D rimRadius /\
   ~ In rimPoint (selectInCircle origin2D rimRadius [rimPoint])) /\
  (hasValue (x nearPoint) (5404319552844595 # 2251799813685248) /\
   hasValue (z nearPoint) (9 # 2) /\
   hasValue nearRadius (2871044762448691 # 562949953421312) /\
   fartherThan nearPoint origin2D nearRadius /\
   In nearPoint (selectInCircle origin2D nearRadius [nearPoint])).
Proof.
  split; [|split].
  - repeat (split; [vm_compute; reflexivity|]). split.
    + vm_compute. split; [discriminate|reflexivity].
    + vm_compute. left. reflexivity.
  - repeat (split; [vm_compute; reflexivity|]). split.
    + vm_compute. split; discriminate.
    + vm_compute. intros H. exact H.
  - repeat (split; [vm_compute; reflexivity|]). split.
    + vm_compute. split; [discriminate|reflexivity].
    + vm_compute. left. reflexivity.
Qed.

(** Radius zero on [pointA] itself. *)
Lemma selectInCircle_distance_witness :
  is_finite (x pointA) = true /\ is_finite (z pointA) = true /\
  In pointA somePoints /\
  In pointA (selectInCircle (Point2D.mk (x pointA) (z pointA)) 0 somePoints).
Proof.
  assert (Hx : is_finite (x pointA) = true) by reflexivity.
  assert (Hz : is_finite (z pointA) = true) by reflexivity.
  assert (Hin : In pointA somePoints) by (left; reflexivity).
  split; [exact Hx|]. split; [exact Hz|]. split; [exact Hin|].
  exact (proj2 (selectInCircle_distance origin2D 0 somePoints pointA) Hx Hz Hin).
Defined.

(** C8 as stated fails: with radius [-5] the point at distance 5 from the
    centre is selected, by the worker and through the manager. *)
Lemma negative_radius_selects :
  (-5 <? 0) = true /\
  selectInCircle origin2D (-5) somePoints = [pointA] /\
  manager_selectInCircle (Some spatialOps_selectInCircle) origin2D (-5) somePoints
    = [pointA] /\
  manager_selectInCircle (Some spatialOps_selectInCircle) origin2D (-5) somePoints
    <> [].
Proof.
  split; [reflexivity|]. split; [vm_compute; reflexivity|].
  split; [vm_compute; reflexivity|]. vm_compute. discriminate.
Qed.

End SpatialWorkerDoubleInstances.

(* ===================================================================== *)
(** * Properties of the region colouring                                  *)
(* ===================================================================== *)

Section StateColorsProperties.
Import StateColors.

(** ** Facts read off the adjacency table *)

Lemma table_rows_ok : forallb rowOk stateAdjacencyEntries = true.
Proof. vm_compute. reflexivity. Qed.

Lemma existsb_eqb_elem (s : string) (l : list string) :
  existsb (String.eqb s) l = true <-> s ∈ l.
Proof.
  rewrite existsb_exists. split.
  - intros (y & Hin & Heq). apply String.eqb_eq in Heq. subst y.
    now apply list_elem_of_In.
  - intros H. exists s. split; [now apply list_elem_of_In|apply String.eqb_refl].
Qed.

Lemma distinct_NoDup (l : list string) : distinct l = true -> NoDup l.
Proof.
  induction l as [|a l IH]; simpl; intros H; [constructor|].
  apply Bool.andb_true_iff in H. destruct H as [Ha Hl].
  constructor; [|auto].
  intros Hin. apply existsb_eqb_elem in Hin. rewrite Hin in Ha. discriminate.
Qed.

Lemma table_keys_NoDup : NoDup (stateAdjacencyEntries.*1).
Proof. apply distinct_NoDup. vm_compute. reflexivity. Qed.

Lemma adjacency_row (s : string) (ns : list string) :
  stateAdjacency !! s = Some ns -> rowOk (s, ns) = true.
Proof.
  intros H. apply elem_of_list_to_map_2 in H.
  apply list_elem_of_In in H.
  pose proof table_rows_ok as Hall. rewrite forallb_forall in Hall.
  now apply Hall.
Qed.

(** The palette is larger than every neighbour list. *)
Lemma adjacency_degree (s : string) (ns : list string) :
  stateAdjacency !! s = Some ns ->
  (List.length ns < List.length stateColorPalette)%nat.
Proof.
  intros H. apply adjacency_row in H. unfold rowOk in H.
  rewrite !Bool.andb_true_iff in H. destruct H as [[H _] _].
  now apply Nat.ltb_lt in H.
Qed.

Lemma adjacency_irreflexive (s : string) (ns : list string) :
  stateAdjacency !! s = Some ns -> s ∉ ns.
Proof.
  intros H. apply adjacency_row in H. unfold rowOk in H.
  rewrite !Bool.andb_true_iff in H. destruct H as [[_ H] _]. simpl in H.
  intros Hin. apply existsb_eqb_elem in Hin. rewrite Hin in H. discriminate.
Qed.

Lemma adjacency_symmetric (s t : string) (ns : list string) :
  stateAdjacency !! s = Some ns -> t ∈ ns ->
  exists nt, stateAdjacency !! t = Some nt /\ s ∈ nt.
Proof.
  intros H Hin. apply adjacency_row in H. unfold rowOk in H.
  rewrite !Bool.andb_true_iff in H. destruct H as [_ H]. simpl in H.
  rewrite forallb_forall in H.
  apply list_elem_of_In in Hin. specialize (H t Hin).
  unfold listsBack in H. apply existsb_exists in H.
  destruct H as ([t' nt] & Hrow & Hok). simpl in Hok.
  apply Bool.andb_true_iff in Hok. destruct Hok as [Ht Hs].
  apply String.eqb_eq in Ht. subst t'.
  exists nt. split.
  - apply elem_of_list_to_map_1; [exact table_keys_NoDup|].
    now apply list_elem_of_In.
  - now apply existsb_eqb_elem.
Qed.

(** ** The sort keeps the names *)

Lemma insertByNeighbors_Permutation (a : string) (l : list string) :
  insertByNeighbors a l ≡ₚ a :: l.
Proof.
  induction l as [|b l IH]; cbn [insertByNeighbors sortedStates fold_right]; [reflexivity|].
  destruct (neighborCount b <=? neighborCount a)%nat; [reflexivity|].
  rewrite IH. apply Permutation_swap.
Qed.

Lemma sortedStates_Permutation (states : list string) :
  sortedStates states ≡ₚ states.
Proof.
  induction states as [|a l IH]; cbn [insertByNeighbors sortedStates fold_right]; [reflexivity|].
  rewrite insertByNeighbors_Permutation. now rewrite IH.
Qed.

Lemma insertByNeighbors_sorted (a : string) (l : list string) :
  Sorted (fun u v => (neighborCount v <= neighborCount u)%nat) l ->
  Sorted (fun u v => (neighborCount v <= neighborCount u)%nat)
         (insertByNeighbors a l).
Proof.
  induction 1 as [|b l Hs IH Hb]; cbn [insertByNeighbors sortedStates fold_right].
  - repeat constructor.
  - destruct (neighborCount b <=? neighborCount a)%nat eqn:E.
    + apply Nat.leb_le in E. repeat constructor; assumption.
    + apply Nat.leb_gt in E. constructor; [exact IH|].
      destruct Hb as [|c l' Hc]; cbn [insertByNeighbors sortedStates fold_right].
      * constructor. lia.
      * destruct (neighborCount c <=? neighborCount a)%nat;
          constructor; [lia|exact Hc].
Qed.

(** The processing order is by descending neighbour count. *)
Lemma sortedStates_descending (states : list string) :
  Sorted (fun u v => (neighborCount v <= neighborCount u)%nat)
         (sortedStates states).
Proof.
  induction states as [|a l IH]; cbn [insertByNeighbors sortedStates fold_right]; [constructor|].
  now apply insertByNeighbors_sorted.
Qed.

(** ** The colours in use around a state *)

Lemma fold_addUsed (m : gmap string nat) (ns : list string) (acc : gset nat) (c : nat) :
  c ∈ fold_left (addUsed m) ns acc <->
  c ∈ acc \/ exists n, n ∈ ns /\ m !! n = Some c.
Proof.
  revert acc. induction ns as [|n ns IH]; intros acc; simpl.
  - split; [auto|]. intros [H|(n & Hn & _)]; [exact H|]. inversion Hn.
  - rewrite IH. unfold addUsed. split.
    + intros [H|(n' & Hn' & Hc)].
      * destruct (m !! n) as [c'|] eqn:E; [|now left].
        apply elem_of_union in H. destruct H as [H|H]; [|now left].
        apply elem_of_singleton in H. subst c'.
        right. exists n. split; [constructor|exact E].
      * right. exists n'. split; [now constructor|exact Hc].
    + intros [H|(n' & Hn' & Hc)].
      * left. destruct (m !! n); [apply elem_of_union; now right|exact H].
      * apply elem_of_cons in Hn'. destruct Hn' as [->|Hn'].
        -- left. rewrite Hc. apply elem_of_union. left. now apply elem_of_singleton.
        -- right. exists n'. auto.
Qed.

Lemma usedColorsOf_spec (m : gmap string nat) (ns : list string) (c : nat) :
  c ∈ usedColorsOf m ns <-> exists n, n ∈ ns /\ m !! n = Some c.
Proof.
  unfold usedColorsOf. rewrite fold_addUsed. split; [|auto].
  intros [H|H]; [set_solver|exact H].
Qed.

Lemma fold_addUsed_size (m : gmap string nat) (ns : list string) (acc : gset nat) :
  (size (fold_left (addUsed m) ns acc) <= size acc + List.length ns)%nat.
Proof.
  revert acc. induction ns as [|n ns IH]; intros acc; simpl; [lia|].
  etransitivity; [apply IH|]. unfold addUsed.
  destruct (m !! n) as [c|]; [|lia].
  pose proof (size_union_alt {[c]} acc) as Hu.
  pose proof (subseteq_size (acc ∖ {[c]}) acc) as Hd.
  rewrite size_singleton in Hu. rewrite Hu.
  assert (size (acc ∖ {[c]}) <= size acc)%nat.
  { apply Hd. intros k Hk. apply elem_of_difference in Hk. tauto. }
  lia.
Qed.

Lemma usedColorsOf_size (m : gmap string nat) (ns : list string) :
  (size (usedColorsOf m ns) <= List.length ns)%nat.
Proof.
  unfold usedColorsOf. pose proof (fold_addUsed_size m ns ∅) as H.
  rewrite size_empty in H. exact H.
Qed.

(** ** The search for the first free colour *)

Lemma firstAvailable_range (used : gset nat) (n i : nat) :
  (i <= firstAvailable used n i <= i + n)%nat /\
  (forall j, (i <= j < firstAvailable used n i)%nat -> j ∈ used) /\
  ((firstAvailable used n i < i + n)%nat -> firstAvailable used n i ∉ used).
Proof.
  revert i. induction n as [|n IH]; intros i; simpl.
  - repeat split; intros; lia.
  - destruct (decide (i ∈ used)) as [Hin|Hout].
    + destruct (IH (S i)) as (Hr & Hall & Hfree). repeat split; try lia.
      * intros j Hj. destruct (decide (j = i)) as [->|Hne]; [exact Hin|].
        apply Hall. lia.
      * intros Hlt. apply Hfree. lia.
    + repeat split; intros; try lia. exact Hout.
Qed.

(** With fewer colours in use than slots searched, the search ends on a
    colour that is not in use. *)
Lemma firstAvailable_free (used : gset nat) (n : nat) :
  (size used < n)%nat ->
  (firstAvailable used n 0 < n)%nat /\ firstAvailable used n 0 ∉ used.
Proof.
  intros Hsize.
  destruct (firstAvailable_range used n 0) as (Hr & Hall & Hfree).
  assert (Hlt : (firstAvailable used n 0 < n)%nat).
  { destruct (decide (firstAvailable used n 0 < n)%nat) as [H|H]; [exact H|].
    exfalso.
    assert (Hsub : (set_seq 0 n : gset nat) ⊆ used).
    { intros j Hj. apply elem_of_set_seq in Hj. apply Hall. lia. }
    apply subseteq_size in Hsub. rewrite size_set_seq in Hsub. lia. }
  split; [exact Hlt|]. apply Hfree. lia.
Qed.

(** ** One step of the greedy pass *)

Lemma palette_length : List.length stateColorPalette = 10%nat.
Proof. reflexivity. Qed.

(** The colour a state receives is a palette index that none of its
    already coloured neighbours holds. *)
Lemma greedyStep_color (m : gmap string nat) (st : string) :
  exists c,
    greedyStep m st = <[ st := c ]> m /\
    (c < List.length stateColorPalette)%nat /\
    c = firstAvailable (usedColorsOf m (default [] (stateAdjacency !! st)))
                       (List.length stateColorPalette) 0 /\
    forall n ct, n ∈ default [] (stateAdjacency !! st) ->
                 m !! n = Some ct -> c <> ct.
Proof.
  set (ns := default [] (stateAdjacency !! st)).
  set (used := usedColorsOf m ns).
  assert (Hsize : (size used < List.length stateColorPalette)%nat).
  { pose proof (usedColorsOf_size m ns) as Hle. fold used in Hle.
    assert (List.length ns < List.length stateColorPalette)%nat; [|lia].
    subst ns. destruct (stateAdjacency !! st) as [l|] eqn:E.
    - exact (adjacency_degree st l E).
    - rewrite palette_length. cbn [default List.length]. lia. }
  destruct (firstAvailable_free used _ Hsize) as [Hlt Hfree].
  exists (firstAvailable used (List.length stateColorPalette) 0).
  split; [|split; [exact Hlt|split; [reflexivity|]]].
  - unfold greedyStep, colorWith. fold ns. fold used.
    now rewrite Nat.mod_small by exact Hlt.
  - intros n ct Hn Hct Heq. apply Hfree.
    apply usedColorsOf_spec. exists n. split; [exact Hn|].
    now rewrite Heq.
Qed.

Lemma proper_empty : proper ∅.
Proof. intros s t ns cs ct _ _ H. now rewrite lookup_empty in H. Qed.

Lemma greedyStep_proper (m : gmap string nat) (st : string) :
  proper m -> proper (greedyStep m st).
Proof.
  intros Hm. destruct (greedyStep_color m st) as (c & -> & _ & _ & Hfree).
  intros s t ns cs ct Hs Ht Hcs Hct.
  destruct (decide (st = s)) as [Es|Hss]; destruct (decide (st = t)) as [Et|Hst].
  - subst s t. exfalso. exact (adjacency_irreflexive st ns Hs Ht).
  - subst s. rewrite lookup_insert_eq in Hcs.
    rewrite lookup_insert_ne in Hct by exact Hst.
    injection Hcs as <-. apply (Hfree t ct); [|exact Hct].
    now rewrite Hs.
  - subst t. rewrite lookup_insert_eq in Hct.
    rewrite lookup_insert_ne in Hcs by exact Hss.
    injection Hct as <-.
    destruct (adjacency_symmetric s st ns Hs Ht) as (nt & Hnt & Hin).
    intros Heq. apply (Hfree s cs); [now rewrite Hnt|exact Hcs|now symmetry].
  - rewrite lookup_insert_ne in Hcs by exact Hss.
    rewrite lookup_insert_ne in Hct by exact Hst.
    exact (Hm s t ns cs ct Hs Ht Hcs Hct).
Qed.

Lemma fold_greedyStep_proper (l : list string) (m : gmap string nat) :
  proper m -> proper (fold_left greedyStep l m).
Proof.
  revert m. induction l as [|st l IH]; intros m Hm; cbn [fold_left]; [exact Hm|].
  apply IH. now apply greedyStep_proper.
Qed.

(** Every processed state holds a colour afterwards. *)
Lemma fold_greedyStep_assigned (l : list string) (m : gmap string nat) (s : string) :
  s ∈ l \/ is_Some (m !! s) -> is_Some (fold_left greedyStep l m !! s).
Proof.
  revert m. induction l as [|st l IH]; intros m H; cbn [fold_left].
  - destruct H as [H|H]; [inversion H|exact H].
  - apply IH. destruct (greedyStep_color m st) as (c & -> & _).
    destruct (decide (st = s)) as [->|Hne].
    + right. rewrite lookup_insert_eq. eauto.
    + rewrite lookup_insert_ne by exact Hne.
      destruct H as [H|H]; [|now right].
      apply elem_of_cons in H. destruct H as [->|H]; [congruence|now left].
Qed.

(** ** The loop with its throw *)

Lemma assignOne_greedyStep (m : gmap string nat) (st : string) :
  assignOne m st = if throwsOn st then None else Some (greedyStep m st).
Proof.
  unfold assignOne, throwsOn, greedyStep.
  destruct (stateAdjacency !! st); [reflexivity|].
  now destruct (inherited st).
Qed.

(** The loop is the total loop on the states before the first one it
    throws on; it returns exactly when there is none. *)
Lemma forEachState_done (l : list string) (m : gmap string nat) :
  exists done rest,
    l = done ++ rest /\
    Forall (fun st => throwsOn st = false) done /\
    fst (forEachState l m) = fold_left greedyStep done m /\
    (snd (forEachState l m) = Returned <-> rest = []) /\
    (Forall (fun st => throwsOn st = false) l -> rest = []).
Proof.
  revert m. induction l as [|st l IH]; intros m; cbn [forEachState].
  - exists [], []. repeat split; auto.
  - rewrite assignOne_greedyStep. destruct (throwsOn st) eqn:E.
    + exists [], (st :: l). cbn [fst snd fold_left app].
      split; [reflexivity|]. split; [constructor|]. split; [reflexivity|].
      split; [split; discriminate|].
      intros H. apply Forall_cons_1 in H. destruct H as [H _]. congruence.
    + destruct (IH (greedyStep m st)) as (done & rest & -> & Hd & Hf & Hr & Hall).
      exists (st :: done), rest. cbn [fold_left app].
      split; [reflexivity|]. split; [now constructor|]. split; [exact Hf|].
      split; [exact Hr|].
      intros H. apply Forall_cons_1 in H. destruct H as [_ H]. now apply Hall.
Qed.

Lemma throwsOn_inherited (st : string) :
  inherited st = false -> throwsOn st = false.
Proof. unfold throwsOn. intros H. now destruct (stateAdjacency !! st). Qed.

(** Whatever the list, the map a call leaves is properly coloured. *)
Lemma assignStateColors_proper (states : list string) :
  proper (assignStateColors states).
Proof.
  unfold assignStateColors, callAssignStateColors.
  destruct (forEachState_done (sortedStates states) ∅)
    as (done & rest & _ & _ & -> & _).
  apply fold_greedyStep_proper, proper_empty.
Qed.

(** A call on names none of which [Object.prototype] holds returns, and
    its map is the one of the total loop. *)
Lemma assignStateColors_returns (states : list string) :
  (forall name, name ∈ states -> inherited name = false) ->
  completion states = Returned /\
  assignStateColors states = fold_left greedyStep (sortedStates states) ∅.
Proof.
  intros Hown.
  unfold completion, assignStateColors, callAssignStateColors.
  destruct (forEachState_done (sortedStates states) ∅)
    as (done & rest & Hl & _ & Hf & Hr & Hall).
  assert (Hrest : rest = []).
  { apply Hall. apply Forall_forall. intros st Hst.
    apply throwsOn_inherited, Hown.
    now rewrite <- (sortedStates_Permutation states). }
  subst rest. rewrite app_nil_r in Hl. subst done.
  split; [now apply Hr|exact Hf].
Qed.

(** C7.  After [assignStateColors], on every input list, two states of
    the list, one of which the adjacency map lists as a neighbour of the
    other, never hold the same colour index.  When no name of the list is
    a property of [Object.prototype] the call returns, and then both
    states hold an index of the palette, the two indices differing; on a
    list with such a name the call throws, leaving the states coloured
    before the throw.  (The palette has ten colours and no state has
    more than eight neighbours: [adjacency_degree].) *)
Theorem assignStateColors_adjacent_differ
    (states : list string) (s t : string) (ns : list string) :
  s ∈ states -> t ∈ states ->
  stateAdjacency !! s = Some ns -> t ∈ ns ->
  (forall cs ct,
     assignStateColors states !! s = Some cs ->
     assignStateColors states !! t = Some ct ->
     cs <> ct) /\
  ((forall name, name ∈ states -> inherited name = false) ->
   completion states = Returned /\
   exists cs ct,
     assignStateColors states !! s = Some cs /\
     assignStateColors states !! t = Some ct /\
     cs <> ct).
Proof.
  intros Hs Ht Hns Hin.
  assert (Hdiff : forall cs ct,
             assignStateColors states !! s = Some cs ->
             assignStateColors states !! t = Some ct -> cs <> ct).
  { intros cs ct Hcs Hct.
    exact (assignStateColors_proper states s t ns cs ct Hns Hin Hcs Hct). }
  split; [exact Hdiff|].
  intros Hown. destruct (assignStateColors_returns states Hown) as [Hret Hmap].
  split; [exact Hret|].
  assert (Hs' : s ∈ sortedStates states)
    by now rewrite sortedStates_Permutation.
  assert (Ht' : t ∈ sortedStates states)
    by now rewrite sortedStates_Permutation.
  destruct (fold_greedyStep_assigned (sortedStates states) ∅ s (or_introl Hs'))
    as [cs Hcs].
  destruct (fold_greedyStep_assigned (sortedStates states) ∅ t (or_introl Ht'))
    as [ct Hct].
  rewrite <- Hmap in Hcs, Hct.
  exists cs, ct. split; [exact Hcs|]. split; [exact Hct|].
  now apply Hdiff.
Qed.

(** ** The fallback colour *)

Lemma fallbackIndex_lt (stateName : string) :
  (fallbackIndex stateName < List.length stateColorPalette)%nat.
Proof.
  unfold fallbackIndex. rewrite palette_length.
  pose proof (Z.rem_bound_abs (hashName stateName) (Z.of_nat 10)) as H.
  change (Z.of_nat 10) with 10%Z in *. lia.
Qed.

End StateColorsProperties.

Section StateColorsInstances.
Import StateColors Samples.

Lemma threeStates_own (name : string) :
  name ∈ threeStates -> inherited name = false.
Proof.
  intros H. apply existsb_eqb_elem in H. unfold threeStates in H.
  cbn [existsb] in H. rewrite !Bool.orb_true_iff in H.
  destruct H as [H|[H|[H|H]]]; try discriminate;
    apply String.eqb_eq in H; subst name; reflexivity.
Qed.

Lemma assignStateColors_adjacent_differ_witness :
  "Alabama"%string ∈ threeStates /\
  "Florida"%string ∈ threeStates /\
  stateAdjacency !! "Alabama"%string
    = Some ["Mississippi"; "Tennessee"; "Georgia"; "Florida"]%string /\
  "Florida"%string ∈ ["Mississippi"; "Tennessee"; "Georgia"; "Florida"]%string /\
  (forall name, name ∈ threeStates -> inherited name = false) /\
  completion threeStates = Returned /\
  exists cs ct,
    assignStateColors threeStates !! "Alabama"%string = Some cs /\
    assignStateColors threeStates !! "Florida"%string = Some ct /\
    cs <> ct.
Proof.
  assert (H1 : "Alabama"%string ∈ threeStates)
    by (apply existsb_eqb_elem; reflexivity).
  assert (H2 : "Florida"%string ∈ threeStates)
    by (apply existsb_eqb_elem; reflexivity).
  assert (H3 : stateAdjacency !! "Alabama"%string
               = Some ["Mississippi"; "Tennessee"; "Georgia"; "Florida"]%string)
    by (vm_compute; reflexivity).
  assert (H4 : "Florida"%string ∈ ["Mississippi"; "Tennessee"; "Georgia"; "Florida"]%string)
    by (apply existsb_eqb_elem; reflexivity).
  repeat (split; [assumption|]).
  split; [exact threeStates_own|].
  exact (proj2 (assignStateColors_adjacent_differ threeStates _ _ _ H1 H2 H3 H4)
               threeStates_own).
Defined.

(** A list with a name of [Object.prototype]: [__defineGetter__] sorts
    between New Hampshire (three neighbours) and Maine (one), the loop
    throws on it, and Maine is left without a colour. *)
Example assignStateColors_throws :
  callAssignStateColors ["Maine"; "__defineGetter__"; "New Hampshire"]%string
    = ({[ "New Hampshire"%string := 0%nat ]}, ThrewTypeError) /\
  getStateColor (assignStateColors ["Maine"; "__defineGetter__"; "New Hampshire"]%string)
                "__defineGetter__" = None.
Proof. split; vm_compute; reflexivity. Qed.

(** The units of a name outside ASCII: one unit for a two-byte sequence,
    a surrogate pair for a four-byte one. *)
Example codeUnits_sample :
  codeUnits "Québec" = [81; 117; 233; 98; 101; 99]%Z /\
  codeUnits "😀" = [55357; 56832]%Z.
Proof. split; vm_compute; reflexivity. Qed.

(** C9 on the code.  The federal district has no row in the adjacency
    map, and the call at map load, on the fifty states and the district,
    returns; yet afterwards the district's colour is the first palette
    colour, not the colour at its hash index (7).  The same name has the
    hash colour as long as the colour map holds no entry for it. *)
Theorem district_not_hash_coloured :
  stateAdjacency !! "District of Columbia"%string = None /\
  completion featureNames = Returned /\
  fallbackIndex "District of Columbia" = 7%nat /\
  stateColorPalette !! fallbackIndex "District of Columbia" = Some 0xec4899%Z /\
  getStateColor (assignStateColors featureNames) "District of Columbia"
    = Some 0x3b82f6%Z /\
  getStateColor ∅ "District of Columbia" = Some 0xec4899%Z.
Proof. repeat split; vm_compute; reflexivity. Qed.

End StateColorsInstances.

(* ===================================================================== *)
(** * Properties of the selection history                                 *)
(* ===================================================================== *)

Section SelectionSliceProperties.
Import StateTypes SelectionSlice.








(** Fifty-one additions from the initial state: the entry of the first
    addition is gone, the other fifty remain, newest first. *)
Example fifty_one_additions :
  List.map id (selectionHistory
                 (dispatchAll initialState (Samples.additions 51)))
    = List.map (fun k => selectionId (Z.of_nat k)) (rev (seq 2 50)).
Proof. vm_compute. reflexivity. Qed.

End SelectionSliceProperties.

(* ===================================================================== *)
(** * Properties of the map slice                                         *)
(* ===================================================================== *)

Section MapSliceProperties.
Import StateTypes MapSlice.

(** C10.  [setSelectionMode] always stores the mode; it clears the
    selection geometry when the mode is ['pan'] and leaves it as it was
    otherwise; camera, viewport, level of detail and performance mode are
    untouched. *)
Theorem setSelectionMode_frame (state : MapState) (m : SelectionMode) :
  selectionMode (setSelectionMode state m) = m /\
  (m = mode_pan -> selectionGeometry (setSelectionMode state m) = None) /\
  (m <> mode_pan ->
   selectionGeometry (setSelectionMode state m) = selectionGeometry state) /\
  camera (setSelectionMode state m) = camera state /\
  viewport (setSelectionMode state m) = viewport state /\
  lodLevel (setSelectionMode state m) = lodLevel state /\
  performanceMode (setSelectionMode state m) = performanceMode state.
Proof.
  unfold setSelectionMode.
  destruct (decide (m = mode_pan)) as [E|E]; cbn; repeat split; congruence.
Qed.

End MapSliceProperties.

(* ===================================================================== *)
(** * Properties of the camera                                            *)
(* ===================================================================== *)

Section ThreeSceneProperties.
Import ThreeScene ThreeScene.THREE.
Local Open Scope R_scope.

(** ** Zoom *)

Lemma clamp_in_range (value lo hi : R) :
  lo <= hi -> lo <= clamp value lo hi <= hi.
Proof.
  intros H. unfold clamp, Rmax, Rmin.
  destruct (Rle_dec hi value); destruct (Rle_dec lo _); lra.
Qed.

Lemma zoom_limits_ordered : MIN_ZOOM <= MAX_ZOOM.
Proof. unfold MIN_ZOOM, MAX_ZOOM. lra. Qed.

Lemma initRefs_zoomReady (container : Container) : zoomReady (initRefs container).
Proof.
  exists (initCamera container). split; [reflexivity|].
  cbn. unfold MIN_ZOOM, MAX_ZOOM. lra.
Qed.

Lemma handlePan_zoomReady (refs : Refs) (deltaX deltaY : R) :
  zoomReady refs -> zoomReady (handlePan refs deltaX deltaY).
Proof.
  intros (camera & Hc & Hz). unfold handlePan. rewrite Hc.
  destruct (Rle_dec _ _); eexists; (split; [reflexivity|exact Hz]).
Qed.

Lemma unprojectScreenCoords_Some (refs : Refs) (camera : OrthographicCamera)
    (container : Container) (screenX screenY : R) :
  cameraRef refs = Some camera -> containerRef refs = Some container ->
  unprojectScreenCoords refs screenX screenY
    = Some (groundPoint camera container screenX screenY).
Proof.
  intros Hc Hk. unfold unprojectScreenCoords. now rewrite Hc, Hk.
Qed.

(** What [handleZoom] leaves in [cameraRef]: the new zoom, and the position
    moved by the difference of the two unprojections of the anchor. *)
Lemma handleZoom_result (refs : Refs) (camera : OrthographicCamera)
    (container : Container) (delta mouseX mouseY : R) :
  cameraRef refs = Some camera -> containerRef refs = Some container ->
  let before := groundPoint camera container mouseX mouseY in
  let after := groundPoint (zoomed camera delta) container mouseX mouseY in
  handleZoom refs delta mouseX mouseY
    = setCamera (setCamera refs (zoomed camera delta))
        (setPositionXZ (zoomed camera delta)
           (x (position camera) + (x after - x before))
           (z (position camera) + (z after - z before))).
Proof.
  intros Hc Hk before after. unfold handleZoom. rewrite Hc, Hk.
  rewrite (unprojectScreenCoords_Some refs camera container _ _ Hc Hk).
  fold (zoomed camera delta).
  rewrite (unprojectScreenCoords_Some (setCamera refs (zoomed camera delta))
             (zoomed camera delta) container _ _ eq_refl Hk).
  reflexivity.
Qed.

Lemma handleZoom_zoomReady (refs : Refs) (delta mouseX mouseY : R) :
  zoomReady refs -> zoomReady (handleZoom refs delta mouseX mouseY).
Proof.
  intros (camera & Hc & Hz).
  destruct (containerRef refs) as [container|] eqn:Hk.
  - rewrite (handleZoom_result refs camera container _ _ _ Hc Hk).
    eexists. split; [reflexivity|].
    cbn [zoom setPositionXZ zoomed setZoom].
    apply clamp_in_range, zoom_limits_ordered.
  - exists camera. unfold handleZoom. rewrite Hc, Hk. split; [exact Hc|exact Hz].
Qed.

Lemma applyOps_zoomReady (ops : list CameraOp) (refs : Refs) :
  zoomReady refs -> zoomReady (applyOps refs ops).
Proof.
  revert refs. induction ops as [|op ops IH]; intros refs H; cbn; [exact H|].
  apply IH. destruct op; cbn.
  - now apply handlePan_zoomReady.
  - now apply handleZoom_zoomReady.
Qed.

(** ** Unprojection *)

(** The ray from the camera through the unprojected screen point does not
    depend on where the camera stands. *)
Lemma viewRay_setPositionXZ camera container screenX screenY newX newZ :
  viewRay (setPositionXZ camera newX newZ) container screenX screenY
    = viewRay camera container screenX screenY.
Proof.
  unfold viewRay, sub, unproject, add, multiplyScalar.
  cbn [x y z position zoom left right top bottom near far xAxis yAxis zAxis
       setPositionXZ].
  f_equal; ring.
Qed.

Lemma groundPoint_viewRay camera container screenX screenY :
  groundPoint camera container screenX screenY
    = add (position camera)
          (multiplyScalar
             (normalize (viewRay camera container screenX screenY))
             (- y (position camera)
                / y (normalize (viewRay camera container screenX screenY)))).
Proof. reflexivity. Qed.

(** Moving the camera in the ground plane moves the unprojected point
    along with it. *)
Lemma groundPoint_setPositionXZ camera container screenX screenY newX newZ :
  groundPoint (setPositionXZ camera newX newZ) container screenX screenY
    = add (groundPoint camera container screenX screenY)
          (mkVector3 (newX - x (position camera)) 0 (newZ - z (position camera))).
Proof.
  rewrite !groundPoint_viewRay, viewRay_setPositionXZ.
  unfold add, multiplyScalar. cbn [x y z position setPositionXZ].
  f_equal; ring.
Qed.

(** Where the ray meets the ground, when it is not parallel to it. *)
Lemma groundPoint_hit camera container screenX screenY :
  let v := viewRay camera container screenX screenY in
  y v <> 0 ->
  groundPoint camera container screenX screenY
    = mkVector3 (x (position camera) - y (position camera) * x v / y v)
                0
                (z (position camera) - y (position camera) * z v / y v).
Proof.
  intros v Hv. rewrite groundPoint_viewRay. fold v.
  unfold normalize.
  set (l := if Req_dec_T (length v) 0 then 1 else length v).
  assert (Hl : l <> 0).
  { unfold l. destruct (Req_dec_T (length v) 0); [lra|assumption]. }
  unfold add, multiplyScalar. cbn [x y z]. f_equal; field; auto.
Qed.

(** The anchor after [handleZoom], against the anchor before: with
    [before] and [after] the two unprojections that [handleZoom] takes, the
    anchor ends at [after + (after - before)]. *)
Lemma handleZoom_anchor (refs : Refs) (camera : OrthographicCamera)
    (container : Container) (delta mouseX mouseY : R) :
  cameraRef refs = Some camera -> containerRef refs = Some container ->
  let before := groundPoint camera container mouseX mouseY in
  let after := groundPoint (zoomed camera delta) container mouseX mouseY in
  unprojectScreenCoords refs mouseX mouseY = Some before /\
  unprojectScreenCoords (handleZoom refs delta mouseX mouseY) mouseX mouseY
    = Some (mkVector3 (x after + (x after - x before))
                      (y after)
                      (z after + (z after - z before))).
Proof.
  intros Hc Hk before after.
  split; [exact (unprojectScreenCoords_Some refs camera container _ _ Hc Hk)|].
  rewrite (handleZoom_result refs camera container _ _ _ Hc Hk).
  fold before after.
  erewrite unprojectScreenCoords_Some; [|reflexivity|exact Hk].
  rewrite groundPoint_setPositionXZ. fold after.
  unfold add. cbn [x y z position zoomed setZoom]. do 2 f_equal; ring.
Qed.

End ThreeSceneProperties.

Section ThreeSceneInstances.
Import ThreeScene ThreeScene.THREE Samples.
Local Open Scope R_scope.

Lemma tilt_ge_1 : 1 <= tilt.
Proof.
  unfold tilt. rewrite <- sqrt_1 at 1. apply sqrt_le_1_alt. lra.
Qed.

Lemma clamp_inside (value lo hi : R) :
  lo <= value <= hi -> clamp value lo hi = value.
Proof.
  intros H. unfold clamp, Rmax, Rmin.
  destruct (Rle_dec hi value); destruct (Rle_dec lo _); lra.
Qed.

Lemma distanceFromCenter_ge_x (a b : R) : a <= distanceFromCenter a b.
Proof.
  unfold distanceFromCenter.
  destruct (Rle_dec a 0) as [Hneg|Hpos].
  - pose proof (sqrt_pos (a * a + b * b)). lra.
  - apply Rnot_le_lt in Hpos.
    rewrite <- (sqrt_square a) at 1 by lra.
    apply sqrt_le_1_alt. nra.
Qed.

(** The initial camera over the square container, at any zoom and ground
    position: the ray through the middle of the left edge of the screen. *)
Lemma leftEdge_ray (zm px pz : R) :
  zm <> 0 ->
  let camera := setPositionXZ (setZoom (initCamera squareContainer) zm) px pz in
  x (viewRay camera squareContainer 0 500) = - 500 / zm /\
  y (viewRay camera squareContainer 0 500) = - (30001 / 40) / tilt.
Proof.
  intros Hzm camera.
  pose proof tilt_ge_1 as Ht.
  unfold camera, viewRay, sub, unproject, add, multiplyScalar, initCamera,
    squareContainer.
  cbn [x y z position zoom left right top bottom near far xAxis yAxis zAxis
       setPositionXZ setZoom clientWidth clientHeight].
  split; field; lra.
Qed.

(** ... and where that ray meets the ground, along x. *)
Lemma leftEdge_ground_x (zm px pz : R) :
  zm <> 0 ->
  x (groundPoint (setPositionXZ (setZoom (initCamera squareContainer) zm) px pz)
                 squareContainer 0 500)
    = px - (1000000 / 30001) * tilt / zm.
Proof.
  intros Hzm. pose proof tilt_ge_1 as Ht.
  destruct (leftEdge_ray zm px pz Hzm) as [Hx Hy].
  rewrite groundPoint_hit.
  - cbn [x]. rewrite Hx, Hy.
    cbn [x y position setPositionXZ setZoom initCamera]. field. lra.
  - rewrite Hy. intros H.
    assert (Hq : (30001 / 40) / tilt = 0) by lra.
    apply Rmult_integral in Hq. destruct Hq as [Hq|Hq]; [lra|].
    pose proof (Rinv_0_lt_compat tilt). lra.
Qed.

Lemma zoomed_initial (px pz : R) :
  zoomed (setPositionXZ (initCamera squareContainer) px pz) 1
    = setPositionXZ (setZoom (initCamera squareContainer) (3 / 2)) px pz.
Proof.
  unfold zoomed.
  cbn [zoom setPositionXZ initCamera].
  rewrite clamp_inside by (unfold MIN_ZOOM, MAX_ZOOM; lra).
  unfold setZoom, setPositionXZ. cbn. f_equal. lra.
Qed.

(** Zooming in by [delta = 1] with the pointer on the middle of the left
    edge moves the camera towards positive x by more than 11 units. *)
Lemma leftEdge_zoom_shift (px pz : R) :
  let camera := setPositionXZ (initCamera squareContainer) px pz in
  11 < x (groundPoint (zoomed camera 1) squareContainer 0 500)
       - x (groundPoint camera squareContainer 0 500).
Proof.
  intros camera. unfold camera. rewrite zoomed_initial.
  rewrite leftEdge_ground_x by lra.
  change (setPositionXZ (initCamera squareContainer) px pz)
    with (setPositionXZ (setZoom (initCamera squareContainer) 1) px pz).
  rewrite leftEdge_ground_x by lra.
  pose proof tilt_ge_1 as Ht. lra.
Qed.

(** A pan of 800 pixels to the left takes the initial camera onto the
    bound, at [x = 2000]. *)
Lemma pan_onto_bound :
  handlePan (initRefs squareContainer) (-800) 0
    = setCamera (initRefs squareContainer)
        (setPositionXZ (initCamera squareContainer) 2000 0).
Proof.
  unfold handlePan. cbn [cameraRef initRefs].
  cbn [x y z position zoom initCamera].
  replace (0 - -800 * (25 / 10 / 1)) with 2000 by lra.
  replace (0 - 0 * (25 / 10 / 1)) with 0 by lra.
  assert (Hd : distanceFromCenter 2000 0 = 2000).
  { unfold distanceFromCenter.
    replace (2000 * 2000 + 0 * 0) with (2000 * 2000) by ring.
    apply sqrt_square. lra. }
  rewrite Hd. unfold MAX_PAN_DISTANCE.
  destruct (Rle_dec 2000 2000) as [_|Hn]; [reflexivity|exfalso; lra].
Qed.

(** C4 on the code.  From the camera that [initScene] builds over the
    square container, the pan of 800 pixels to the left puts the camera at
    [x = 2000], on the bound; the zoom that follows, with the pointer on
    the middle of the left edge, translates the camera by the anchor's
    shift without any check: the zoom is within its limits, but the camera
    ends beyond [x = 2011], more than 11 units outside
    [MAX_PAN_DISTANCE]. *)
Theorem zoom_leaves_pan_bound :
  exists camera,
    cameraRef (applyOps (initRefs squareContainer) [Pan (-800) 0; Zoom 1 0 500])
      = Some camera /\
    MIN_ZOOM <= zoom camera <= MAX_ZOOM /\
    2011 < x (position camera) /\
    MAX_PAN_DISTANCE + 11 < panDistance camera.
Proof.
  cbn [applyOps fold_left applyOp].
  rewrite pan_onto_bound.
  rewrite (handleZoom_result
             (setCamera (initRefs squareContainer)
                (setPositionXZ (initCamera squareContainer) 2000 0))
             (setPositionXZ (initCamera squareContainer) 2000 0)
             squareContainer 1 0 500 eq_refl eq_refl).
  eexists. split; [reflexivity|].
  pose proof (leftEdge_zoom_shift 2000 0) as Hshift. cbv zeta in Hshift.
  unfold panDistance. cbn [position setPositionXZ x z zoom].
  split; [|split].
  - rewrite zoomed_initial. cbn [zoom setPositionXZ setZoom].
    unfold MIN_ZOOM, MAX_ZOOM. lra.
  - lra.
  - match goal with
    | |- _ < distanceFromCenter ?a ?b =>
        pose proof (distanceFromCenter_ge_x a b) as Hge
    end.
    unfold MAX_PAN_DISTANCE. lra.
Qed.

(** C5 on the code.  From the initial camera over the square container,
    [handleZoom(1, 0, 500)]: the world point under the pointer before the
    call and the world point under the same pointer after the call lie
    more than 22 units apart along x. *)
Theorem handleZoom_moves_anchor :
  exists before after,
    unprojectScreenCoords (initRefs squareContainer) 0 500 = Some before /\
    unprojectScreenCoords
      (handleZoom (initRefs squareContainer) 1 0 500) 0 500 = Some after /\
    22 < x after - x before.
Proof.
  destruct (handleZoom_anchor (initRefs squareContainer)
              (initCamera squareContainer) squareContainer 1 0 500
              eq_refl eq_refl) as [Hb Ha].
  cbv zeta in Hb, Ha.
  eexists. eexists. split; [exact Hb|]. split; [exact Ha|].
  cbn [x].
  pose proof (leftEdge_zoom_shift 0 0) as Hshift. cbv zeta in Hshift.
  change (setPositionXZ (initCamera squareContainer) 0 0)
    with (initCamera squareContainer) in Hshift.
  lra.
Qed.

End ThreeSceneInstances.

(* ===================================================================== *)
(** * More on the spatial worker                                          *)
(* ===================================================================== *)

Section SpatialWorkerMore.
Import SpatialWorker.

Lemma filter_sublist (test : CompanyPoint -> bool) (l : list CompanyPoint) :
  List.filter test l `sublist_of` l.
Proof.
  induction l as [|c l IH]; simpl; [constructor|].
  destruct (test c); [now apply sublist_skip|now apply sublist_cons].
Qed.

Lemma filter_narrow (f g : CompanyPoint -> bool) (l : list CompanyPoint) :
  (forall c, f c = true -> g c = true) ->
  List.filter f (List.filter g l) = List.filter f l.
Proof.
  intros Himp. induction l as [|c l IH]; simpl; [reflexivity|].
  destruct (g c) eqn:Eg; simpl.
  - destruct (f c); now rewrite IH.
  - destruct (f c) eqn:Ef; [|exact IH].
    apply Himp in Ef. congruence.
Qed.

Lemma selectInPolygon_filter (polygonPoints : list Point2D.t)
    (allCoords : list CompanyPoint) :
  selectInPolygon polygonPoints allCoords
    = if (List.length polygonPoints <? 3)%nat then []
      else List.filter
             (fun company =>
                isPointInPolygon (Point2D.mk (x company) (z company)) polygonPoints)
             allCoords.
Proof.
  unfold selectInPolygon. destruct (_ <? _)%nat; [reflexivity|].
  apply selectLoop_filter.
Qed.

(** X1.  Every selection returns its points in the order of the input, each at
    most as often as the input has it. *)
Theorem selections_keep_order
    (min max center : Point2D.t) (radius : Q) (polygonPoints : list Point2D.t)
    (allCoords : list CompanyPoint) :
  selectInRectangle min max allCoords `sublist_of` allCoords /\
  selectInCircle center radius allCoords `sublist_of` allCoords /\
  selectInPolygon polygonPoints allCoords `sublist_of` allCoords.
Proof.
  unfold selectInRectangle, selectInCircle.
  rewrite selectInPolygon_filter, !selectLoop_filter.
  repeat split; try apply filter_sublist.
  destruct (_ <? _)%nat; [apply sublist_nil_l|apply filter_sublist].
Qed.

(** X2.  Running a selection on its own result changes nothing. *)
Theorem selections_idempotent
    (min max center : Point2D.t) (radius : Q) (polygonPoints : list Point2D.t)
    (allCoords : list CompanyPoint) :
  selectInRectangle min max (selectInRectangle min max allCoords)
    = selectInRectangle min max allCoords /\
  selectInCircle center radius (selectInCircle center radius allCoords)
    = selectInCircle center radius allCoords /\
  selectInPolygon polygonPoints (selectInPolygon polygonPoints allCoords)
    = selectInPolygon polygonPoints allCoords.
Proof.
  unfold selectInRectangle, selectInCircle.
  rewrite !selectInPolygon_filter, !selectLoop_filter.
  repeat split; try (apply filter_narrow; auto).
  destruct (_ <? _)%nat; [reflexivity|]. apply filter_narrow; auto.
Qed.

(** X3.  The corners are not swapped: a rectangle whose [max] lies below its
    [min] on either axis selects nothing. *)
Theorem selectInRectangle_inverted
    (min max : Point2D.t) (allCoords : list CompanyPoint) :
  (Point2D.x max < Point2D.x min \/ Point2D.y max < Point2D.y min)%Q ->
  selectInRectangle min max allCoords = [].
Proof.
  intros Hinv. unfold selectInRectangle. rewrite selectLoop_filter.
  induction allCoords as [|c l IH]; simpl; [reflexivity|].
  destruct (inRectangle min max c) eqn:E; [|exact IH].
  exfalso. apply inRectangle_true in E.
  destruct E as [[H1 H2] [H3 H4]].
  destruct Hinv as [H|H].
  - apply (Qlt_irrefl (Point2D.x min)).
    eapply Qle_lt_trans; [|exact H]. eapply Qle_trans; eassumption.
  - apply (Qlt_irrefl (Point2D.y min)).
    eapply Qle_lt_trans; [|exact H]. eapply Qle_trans; eassumption.
Qed.

Lemma inCircle_true (center : Point2D.t) (radiusSq : Q) (p : CompanyPoint) :
  inCircle center radiusSq p = true <->
  ((x p - Point2D.x center) * (x p - Point2D.x center)
   + (z p - Point2D.y center) * (z p - Point2D.y center) <= radiusSq)%Q.
Proof. unfold inCircle. apply Qle_bool_iff. Qed.

(** X4.  Circles around one centre are nested: selecting with the smaller
    radius from what the larger radius selected gives what the smaller
    radius selects from the whole list. *)
Theorem selectInCircle_nested
    (center : Point2D.t) (r1 r2 : Q) (allCoords : list CompanyPoint) :
  (0 <= r1)%Q -> (r1 <= r2)%Q ->
  selectInCircle center r1 (selectInCircle center r2 allCoords)
    = selectInCircle center r1 allCoords.
Proof.
  intros H0 H12. unfold selectInCircle. rewrite !selectLoop_filter.
  apply filter_narrow. intros c Hc.
  apply inCircle_true in Hc. apply inCircle_true.
  eapply Qle_trans; [exact Hc|].
  apply Qmult_le_compat_nonneg; split; assumption.
Qed.

(** ** The even-odd test *)

Lemma Qlt_bool_iff (a b : Q) : Qlt_bool a b = true <-> (a < b)%Q.
Proof.
  unfold Qlt_bool. rewrite Qlt_alt.
  destruct (a ?= b)%Q; split; congruence.
Qed.

Lemma Qlt_bool_false (a b : Q) : Qlt_bool a b = false <-> (b <= a)%Q.
Proof.
  rewrite <- Bool.not_true_iff_false, Qlt_bool_iff. split.
  - apply Qnot_lt_le.
  - apply Qle_not_lt.
Qed.

(** If no edge between two vertices of the polygon toggles the flag, the
    loop returns the flag it started with. *)
Lemma edgeLoop_unchanged (px py : Q) (polygon : list Point2D.t) :
  (forall vi vj inside, In vi polygon -> In vj polygon ->
                        edgeStep px py vi vj inside = inside) ->
  forall n i j inside, edgeLoop px py polygon n i j inside = inside.
Proof.
  intros Hstep. induction n as [|n IH]; intros i j inside; simpl; [reflexivity|].
  destruct (nth_error polygon i) as [vi|] eqn:Ei; [|reflexivity].
  destruct (nth_error polygon j) as [vj|] eqn:Ej; [|reflexivity].
  rewrite IH. apply Hstep; eapply nth_error_In; eassumption.
Qed.

Lemma selectInPolygon_In (polygonPoints : list Point2D.t)
    (allCoords : list CompanyPoint) (p : CompanyPoint) :
  In p (selectInPolygon polygonPoints allCoords) ->
  isPointInPolygon (Point2D.mk (x p) (z p)) polygonPoints = true.
Proof.
  rewrite selectInPolygon_filter. destruct (_ <? _)%nat; [intros []|].
  rewrite filter_In. tauto.
Qed.

(** X6.  A point whose [z] is at or above every vertex's [y], or below every
    vertex's [y], is never selected: no edge straddles its height. *)
Theorem selectInPolygon_outside_height
    (polygonPoints : list Point2D.t) (allCoords : list CompanyPoint)
    (p : CompanyPoint) :
  (forall v, In v polygonPoints -> (Point2D.y v <= z p)%Q) \/
  (forall v, In v polygonPoints -> (z p < Point2D.y v)%Q) ->
  ~ In p (selectInPolygon polygonPoints allCoords).
Proof.
  intros Hside Hin. apply selectInPolygon_In in Hin.
  unfold isPointInPolygon in Hin. cbn [Point2D.x Point2D.y] in Hin.
  rewrite edgeLoop_unchanged in Hin; [discriminate|].
  intros vi vj inside Hi Hj. unfold edgeStep.
  destruct Hside as [Hle|Hlt].
  - apply Hle in Hi, Hj. apply Qlt_bool_false in Hi, Hj.
    now rewrite Hi, Hj.
  - apply Hlt in Hi, Hj. apply Qlt_bool_iff in Hi, Hj.
    now rewrite Hi, Hj.
Qed.



End SpatialWorkerMore.

(* ===================================================================== *)
(** * More on the region colouring                                        *)
(* ===================================================================== *)

Section StateColorsMore.
Import StateColors.

(** The search never passes more colours than are in use. *)
Lemma firstAvailable_le_size (used : gset nat) (n : nat) :
  (firstAvailable used n 0 <= size used)%nat.
Proof.
  destruct (firstAvailable_range used n 0) as (_ & Hall & _).
  assert (Hsub : (set_seq 0 (firstAvailable used n 0) : gset nat) ⊆ used).
  { intros j Hj. apply elem_of_set_seq in Hj. apply Hall. lia. }
  apply subseteq_size in Hsub. now rewrite size_set_seq in Hsub.
Qed.

Lemma inheritedLength_small (st : string) (n : nat) :
  inheritedLength st = Some n -> (n <= 2)%nat.
Proof.
  unfold inheritedLength.
  destruct (List.find _ objectPrototype) as [entry|] eqn:E; [|discriminate].
  intros [= <-]. apply find_some in E. destruct E as [Hin _].
  assert (Hall : forallb (fun e => (snd e <=? 2)%nat) objectPrototype = true)
    by reflexivity.
  rewrite forallb_forall in Hall. apply Nat.leb_le. now apply Hall.
Qed.

Lemma neighborCount_default (st : string) :
  (List.length (default [] (stateAdjacency !! st)) <= neighborCount st)%nat.
Proof.
  unfold neighborCount. destruct (stateAdjacency !! st); simpl; lia.
Qed.

Lemma neighborCount_lt_palette (st : string) :
  (neighborCount st < List.length stateColorPalette)%nat.
Proof.
  unfold neighborCount. destruct (stateAdjacency !! st) as [ns|] eqn:E.
  - exact (adjacency_degree st ns E).
  - rewrite palette_length.
    destruct (inheritedLength st) as [n|] eqn:En; simpl; [|lia].
    apply inheritedLength_small in En. lia.
Qed.

Lemma greedyStep_le_neighbors (m : gmap string nat) (st : string) :
  exists c, greedyStep m st = <[ st := c ]> m /\ (c <= neighborCount st)%nat.
Proof.
  destruct (greedyStep_color m st) as (c & Heq & _ & Hc & _).
  exists c. split; [exact Heq|]. rewrite Hc.
  etransitivity; [apply firstAvailable_le_size|].
  etransitivity; [apply usedColorsOf_size|].
  apply neighborCount_default.
Qed.

Lemma fold_greedyStep_le_neighbors (l : list string) (m : gmap string nat) :
  (forall s c, m !! s = Some c -> (c <= neighborCount s)%nat) ->
  forall s c, fold_left greedyStep l m !! s = Some c -> (c <= neighborCount s)%nat.
Proof.
  revert m. induction l as [|st l IH]; intros m Hm; cbn [fold_left]; [exact Hm|].
  apply IH. destruct (greedyStep_le_neighbors m st) as (c0 & -> & Hc0).
  intros s c. destruct (decide (st = s)) as [->|Hne].
  - rewrite lookup_insert_eq. intros [= <-]. exact Hc0.
  - rewrite lookup_insert_ne by exact Hne. apply Hm.
Qed.

Lemma fold_greedyStep_keys (l : list string) (m : gmap string nat) (s : string) :
  is_Some (fold_left greedyStep l m !! s) -> s ∈ l \/ is_Some (m !! s).
Proof.
  revert m. induction l as [|st l IH]; intros m; cbn [fold_left]; [auto|].
  intros H. apply IH in H. destruct H as [H|H].
  - left. now constructor.
  - destruct (greedyStep_color m st) as (c & Heq & _). rewrite Heq in H.
    destruct (decide (st = s)) as [->|Hne].
    + left. constructor.
    + rewrite lookup_insert_ne in H by exact Hne. now right.
Qed.

Lemma assignStateColors_done (states : list string) :
  exists done rest,
    sortedStates states = done ++ rest /\
    Forall (fun st => throwsOn st = false) done /\
    assignStateColors states = fold_left greedyStep done ∅.
Proof.
  unfold assignStateColors, callAssignStateColors.
  destruct (forEachState_done (sortedStates states) ∅)
    as (done & rest & Hl & Hd & Hf & _).
  now exists done, rest.
Qed.

(** No name of [Object.prototype] is a key of the adjacency table. *)
Lemma inherited_no_row (st : string) :
  inherited st = true -> stateAdjacency !! st = None.
Proof.
  unfold inherited, inheritedLength. intros H.
  destruct (List.find _ objectPrototype) as [entry|] eqn:E; [|discriminate].
  apply find_some in E. destruct E as [Hin Heq].
  apply String.eqb_eq in Heq. subst st.
  assert (Hall : forallb (fun e => bool_decide (stateAdjacency !! fst e = None))
                         objectPrototype = true)
    by (vm_compute; reflexivity).
  rewrite forallb_forall in Hall. specialize (Hall entry Hin).
  now apply bool_decide_eq_true in Hall.
Qed.

(** X9.  The index a state receives is at most the number of neighbours its row
    lists: a state with [k] neighbours gets one of the first [k + 1]
    colours, and a state without a row, or with an empty one, gets colour 0. *)
Theorem assignStateColors_index_le_neighbors
    (states : list string) (s : string) (c : nat) :
  assignStateColors states !! s = Some c ->
  (c <= neighborCount s)%nat.
Proof.
  destruct (assignStateColors_done states) as (done & rest & _ & _ & ->).
  apply fold_greedyStep_le_neighbors.
  intros s' c' H. now rewrite lookup_empty in H.
Qed.

(** The colour map holds names of the input list only, and all of them
    when none is a property of [Object.prototype]. *)
Theorem assignStateColors_keys (states : list string) (s : string) :
  (is_Some (assignStateColors states !! s) -> s ∈ states) /\
  ((forall name, name ∈ states -> inherited name = false) ->
   s ∈ states -> is_Some (assignStateColors states !! s)).
Proof.
  split.
  - destruct (assignStateColors_done states) as (done & rest & Hl & _ & ->).
    intros H. apply fold_greedyStep_keys in H.
    destruct H as [H|[c H]].
    + rewrite <- (sortedStates_Permutation states), Hl.
      apply elem_of_app. now left.
    + now rewrite lookup_empty in H.
  - intros Hown H. destruct (assignStateColors_returns states Hown) as [_ ->].
    apply fold_greedyStep_assigned. left.
    now rewrite sortedStates_Permutation.
Qed.

Lemma assignStateColors_lookup_lt (states : list string) (s : string) (c : nat) :
  assignStateColors states !! s = Some c ->
  (c < List.length stateColorPalette)%nat.
Proof.
  intros H. destruct (assignStateColors_done states) as (done & rest & _ & _ & Hm).
  rewrite Hm in H.
  apply (fold_greedyStep_le_neighbors _ ∅) in H.
  - pose proof (neighborCount_lt_palette s). lia.
  - intros s' c' H'. now rewrite lookup_empty in H'.
Qed.

(** X10.  After [assignStateColors], on whatever list, [getStateColor]
    gives a colour of the palette for every name that is not a property
    of [Object.prototype], coloured or not; for a name that is one and
    holds no colour it gives [undefined]. *)
Theorem getStateColor_palette (states : list string) (stateName : string) :
  (inherited stateName = false ->
   exists color,
     getStateColor (assignStateColors states) stateName = Some color /\
     color ∈ stateColorPalette) /\
  (inherited stateName = true ->
   getStateColor (assignStateColors states) stateName = None).
Proof.
  unfold getStateColor. split.
  - intros Hown. rewrite Hown.
    destruct (assignStateColors states !! stateName) as [c|] eqn:E.
    + apply assignStateColors_lookup_lt in E.
      destruct (lookup_lt_is_Some_2 stateColorPalette c E) as [color Hc].
      exists color. split; [exact Hc|]. eapply list_elem_of_lookup_2. exact Hc.
    + destruct (lookup_lt_is_Some_2 stateColorPalette (fallbackIndex stateName)
                  (fallbackIndex_lt stateName)) as [color Hc].
      exists color. split; [exact Hc|]. eapply list_elem_of_lookup_2. exact Hc.
  - intros Hinh. rewrite Hinh.
    destruct (assignStateColors states !! stateName) as [c|] eqn:E; [|reflexivity].
    exfalso.
    destruct (assignStateColors_done states) as (done & rest & _ & Hd & Hm).
    rewrite Hm in E.
    assert (Hkey : stateName ∈ done).
    { destruct (fold_greedyStep_keys done ∅ stateName) as [H|[c' H]];
        [rewrite E; eauto|exact H|now rewrite lookup_empty in H]. }
    rewrite Forall_forall in Hd. specialize (Hd stateName Hkey).
    unfold throwsOn in Hd. rewrite (inherited_no_row stateName Hinh) in Hd.
    congruence.
Qed.

(** The states are processed in an order that rearranges the input list
    and never lets a state follow one with fewer neighbours. *)
Theorem sortedStates_order (states : list string) :
  sortedStates states ≡ₚ states /\
  Sorted (fun u v => (neighborCount v <= neighborCount u)%nat)
         (sortedStates states).
Proof.
  split; [apply sortedStates_Permutation|apply sortedStates_descending].
Qed.

(** ** The hash *)

Lemma toInt32_small (n : Z) :
  (- 2 ^ 31 <= n < 2 ^ 31)%Z -> toInt32 n = n.
Proof.
  intros H. unfold toInt32. rewrite Z.mod_small; lia.
Qed.

(** While the running value stays within 26 bits, the shift does not wrap
    and one step of the hash is [31 * acc + code]. *)
Theorem hashStep_no_wrap (acc : Z) (code : Z) :
  (- 2 ^ 26 <= acc < 2 ^ 26)%Z ->
  hashStep acc code = (31 * acc + code)%Z.
Proof.
  intros H. unfold hashStep, shiftLeft5.
  rewrite (toInt32_small acc) by lia.
  rewrite toInt32_small by lia. lia.
Qed.




End StateColorsMore.

(* ===================================================================== *)
(** * More on the selection slice                                         *)
(* ===================================================================== *)

Section SelectionSliceMore.
Import StateTypes SelectionSlice.

Lemma addToSelectionHistory_head state payload nowId nowTimestamp :
  exists rest,
    selectionHistory (addToSelectionHistory state payload nowId nowTimestamp)
      = newEntry payload nowId nowTimestamp :: rest.
Proof.
  unfold addToSelectionHistory.
  destruct (_ <? _)%nat; cbn [selectionHistory setHistory firstn]; eauto.
Qed.

(** X12.  Restoring the id that an addition has just produced selects the
    companies of that addition and takes its statistics, also when older
    entries carry the same id; the history stays as the addition left it. *)
Theorem restore_after_add
    (state : SelectionState) (payload : HistoryPayload) (nowId nowTimestamp : Z) :
  let added := addToSelectionHistory state payload nowId nowTimestamp in
  let restored := restoreSelectionFromHistory added (selectionId nowId) in
  selectedCompanies restored = list_to_set (payload_companyIds payload) /\
  selectionStats restored = Some (payload_stats payload) /\
  selectionHistory restored = selectionHistory added.
Proof.
  intros added restored. subst restored.
  destruct (addToSelectionHistory_head state payload nowId nowTimestamp)
    as [rest Hhead]. fold added in Hhead.
  unfold restoreSelectionFromHistory. rewrite Hhead.
  cbn [find id newEntry]. rewrite String.eqb_refl.
  cbn [selectedCompanies selectionStats selectionHistory setSelected
       companyIds stats newEntry].
  auto.
Qed.

Lemma find_filter_other (historyId : string) (l : list SelectionHistoryEntry) :
  List.find (fun entry => String.eqb (id entry) historyId)
            (List.filter (fun entry => negb (String.eqb (id entry) historyId)) l)
    = None.
Proof.
  induction l as [|e l IH]; simpl; [reflexivity|].
  destruct (String.eqb (id e) historyId) eqn:E; simpl; [exact IH|].
  now rewrite E.
Qed.

Lemma filter_filter_same (historyId : string) (l : list SelectionHistoryEntry) :
  List.filter (fun entry => negb (String.eqb (id entry) historyId))
    (List.filter (fun entry => negb (String.eqb (id entry) historyId)) l)
  = List.filter (fun entry => negb (String.eqb (id entry) historyId)) l.
Proof.
  induction l as [|e l IH]; simpl; [reflexivity|].
  destruct (negb (String.eqb (id e) historyId)) eqn:E; simpl; [|exact IH].
  now rewrite E, IH.
Qed.

(** X13.  Removing an id removes every entry that carries it: afterwards no
    entry has the id, restoring the id changes nothing, and removing it
    again changes nothing. *)
Theorem remove_then_restore (state : SelectionState) (historyId : string) :
  let removed := removeFromSelectionHistory state historyId in
  (forall entry, In entry (selectionHistory removed) -> id entry <> historyId) /\
  restoreSelectionFromHistory removed historyId = removed /\
  removeFromSelectionHistory removed historyId = removed.
Proof.
  intros removed. subst removed. split; [|split].
  - intros entry Hin. cbn [removeFromSelectionHistory selectionHistory setHistory] in Hin.
    unfold removeFromSelectionHistory in Hin. cbn [selectionHistory setHistory] in Hin.
    apply filter_In in Hin. destruct Hin as [_ Hne].
    apply Bool.negb_true_iff, String.eqb_neq in Hne. exact Hne.
  - unfold restoreSelectionFromHistory, removeFromSelectionHistory.
    cbn [selectionHistory setHistory]. now rewrite find_filter_other.
  - unfold removeFromSelectionHistory.
    cbn [selectionHistory setHistory selectedCompanies selectionStats
         isSelecting selectionMode].
    now rewrite filter_filter_same.
Qed.

(** Restoring an id that no entry carries leaves the state as it is. *)
Theorem restore_unknown_id (state : SelectionState) (historyId : string) :
  (forall entry, In entry (selectionHistory state) -> id entry <> historyId) ->
  restoreSelectionFromHistory state historyId = state.
Proof.
  intros Hnone. unfold restoreSelectionFromHistory.
  destruct (find _ _) as [entry|] eqn:E; [|reflexivity].
  apply find_some in E. destruct E as [Hin Heq].
  apply String.eqb_eq in Heq. now apply Hnone in Hin.
Qed.

(** No action of the selection slice writes its [selectionMode]: it is
    ['pan'] after every sequence of actions from the initial state. *)
Theorem selection_slice_mode_fixed (actions : list Action) (state : SelectionState) :
  selectionMode (dispatchAll state actions) = selectionMode state /\
  selectionMode (dispatchAll initialState actions) = mode_pan.
Proof.
  assert (Hstep : forall s a, selectionMode (reducer s a) = selectionMode s).
  { intros s a. destruct a; cbn [reducer]; try reflexivity.
    - unfold toggleSelection. destruct (decide _); reflexivity.
    - unfold addToSelectionHistory. destruct (_ <? _)%nat; reflexivity.
    - unfold restoreSelectionFromHistory. destruct (find _ _); reflexivity. }
  assert (Hall : forall l s, selectionMode (dispatchAll s l) = selectionMode s).
  { induction l as [|a l IH]; intros s; cbn; [reflexivity|].
    unfold dispatchAll in IH. now rewrite IH, Hstep. }
  split; [apply Hall|]. now rewrite Hall.
Qed.

End SelectionSliceMore.

(* ===================================================================== *)
(** * More on the map slice                                               *)
(* ===================================================================== *)

Section MapSliceMore.
Import StateTypes MapSlice.
Local Open Scope Q_scope.

Variable log2 : Q -> Q.

Lemma clamp_between (lo hi v : Q) :
  lo <= hi -> lo <= Qmax lo (Qmin hi v) <= hi.
Proof.
  intros H. split; [apply Q.le_max_l|].
  apply Q.max_lub; [exact H|apply Q.le_min_l].
Qed.

Lemma reducer_lodInRange (state : MapState) (action : Action) :
  lodInRange state -> lodInRange (reducer log2 state action).
Proof.
  unfold lodInRange. intros H.
  destruct action; cbn [reducer]; try exact H.
  - unfold setSelectionMode. destruct (decide _); exact H.
  - cbn [setLODLevel setLodOf lodLevel]. apply clamp_between. lra.
  - destruct payload; cbn [setPerformanceMode lodLevel]; lra.
Qed.

(** X15.  Whatever is dispatched, the level of detail stays within 0 .. 3. *)
Theorem lodLevel_in_range (actions : list Action) :
  0 <= lodLevel (dispatchAll log2 initialState actions) <= 3.
Proof.
  assert (H : forall l s, lodInRange s -> lodInRange (dispatchAll log2 s l)).
  { induction l as [|a l IH]; intros s Hs; cbn; [exact Hs|].
    apply IH. now apply reducer_lodInRange. }
  apply H. unfold lodInRange. cbn. lra.
Qed.

Lemma reducer_zoomInRange (state : MapState) (action : Action) :
  writesZoom action = false ->
  zoomInRange state -> zoomInRange (reducer log2 state action).
Proof.
  unfold zoomInRange. intros Hw H.
  destruct action; cbn [reducer]; try exact H.
  - cbn [writesZoom] in Hw. unfold updateCamera.
    destruct (update_zoom payload); [discriminate|].
    destruct (update_position payload), (update_target payload); exact H.
  - unfold setSelectionMode. destruct (decide _); exact H.
  - cbn [zoomCamera camera zoom]. apply clamp_between. lra.
  - cbn [resetCamera camera zoom]. lra.
Qed.

(** X16.  The store's camera zoom stays within 0.1 .. 10 as long as no
    [updateCamera] action carries a zoom of its own: [zoomCamera] clamps,
    [resetCamera] sets 1, and the other reducers leave the zoom alone. *)
Theorem store_zoom_in_range (actions : list Action) :
  forallb (fun a => negb (writesZoom a)) actions = true ->
  (1 # 10) <= zoom (camera (dispatchAll log2 initialState actions)) <= 10.
Proof.
  assert (H : forall l s,
             forallb (fun a => negb (writesZoom a)) l = true ->
             zoomInRange s -> zoomInRange (dispatchAll log2 s l)).
  { induction l as [|a l IH]; intros s Hl Hs; cbn; [exact Hs|].
    cbn [forallb] in Hl. apply Bool.andb_true_iff in Hl. destruct Hl as [Ha Hl].
    apply IH; [exact Hl|]. apply reducer_zoomInRange; [|exact Hs].
    now apply Bool.negb_true_iff. }
  intros Hl. apply H; [exact Hl|]. unfold zoomInRange. cbn. lra.
Qed.

Lemma reset_after_cameraAction (state : MapState) (action : Action) :
  cameraAction action = true ->
  resetCamera (reducer log2 state action) = resetCamera state.
Proof.
  intros Ha. destruct action; try discriminate; reflexivity.
Qed.

Lemma resetCamera_depends (s1 s2 : MapState) (action : Action) :
  cameraAction action = true ->
  resetCamera s1 = resetCamera s2 ->
  resetCamera (reducer log2 s1 action) = resetCamera (reducer log2 s2 action).
Proof.
  intros Ha H. now rewrite !reset_after_cameraAction.
Qed.

(** X17.  [resetCamera] undoes every camera movement: after any sequence of
    [updateCamera], [panCamera], [zoomCamera], [resetCamera] and
    [focusOnRegion] actions it yields the state it would have yielded
    straight away. *)
Theorem resetCamera_absorbs (state : MapState) (actions : list Action) :
  forallb cameraAction actions = true ->
  resetCamera (dispatchAll log2 state actions) = resetCamera state.
Proof.
  revert state. induction actions as [|a l IH]; intros state Hl; cbn;
    [reflexivity|].
  cbn [forallb] in Hl. apply Bool.andb_true_iff in Hl. destruct Hl as [Ha Hl].
  unfold dispatchAll in IH. rewrite IH by exact Hl.
  now apply reset_after_cameraAction.
Qed.

End MapSliceMore.

(* ===================================================================== *)
(** * More on the camera                                                  *)
(* ===================================================================== *)

Section ThreeSceneMore.
Import ThreeScene ThreeScene.THREE.
Local Open Scope R_scope.

(** Within the limits, a non-negative [delta] never lowers the zoom and a
    non-positive one never raises it. *)
Theorem handleZoom_direction
    (refs : Refs) (camera : OrthographicCamera) (container : Container)
    (delta mouseX mouseY : R) :
  cameraRef refs = Some camera -> containerRef refs = Some container ->
  MIN_ZOOM <= zoom camera <= MAX_ZOOM ->
  exists camera',
    cameraRef (handleZoom refs delta mouseX mouseY) = Some camera' /\
    (0 <= delta -> zoom camera <= zoom camera') /\
    (delta <= 0 -> zoom camera' <= zoom camera).
Proof.
  intros Hc Hk Hz.
  rewrite (handleZoom_result refs camera container delta mouseX mouseY Hc Hk).
  eexists. split; [reflexivity|].
  cbn [zoom setPositionXZ zoomed setZoom].
  assert (Hpos : 0 < zoom camera) by (unfold MIN_ZOOM in Hz; lra).
  unfold clamp, Rmax, Rmin, MIN_ZOOM, MAX_ZOOM in *.
  split; intros Hd;
    destruct (Rle_dec 250 _); destruct (Rle_dec (8 / 10) _); nra.
Qed.

Lemma sameRig_refl (c : OrthographicCamera) : sameRig c c.
Proof. unfold sameRig. tauto. Qed.

Lemma sameRig_setPositionXZ (c c' : OrthographicCamera) (a b : R) :
  sameRig c c' -> sameRig c (setPositionXZ c' a b).
Proof. unfold sameRig. cbn. tauto. Qed.

Lemma sameRig_setZoom (c c' : OrthographicCamera) (zm : R) :
  sameRig c c' -> sameRig c (setZoom c' zm).
Proof. unfold sameRig. cbn. tauto. Qed.

(** X21.  Pans and zooms move the camera in the ground plane and change its
    zoom, nothing else: after every sequence from the initial state, camera
    and container are still there and the camera has its initial height,
    view volume and orientation. *)
Theorem pan_zoom_keep_rig (container : Container) (ops : list CameraOp) :
  exists camera,
    cameraRef (applyOps (initRefs container) ops) = Some camera /\
    containerRef (applyOps (initRefs container) ops) = Some container /\
    sameRig (initCamera container) camera.
Proof.
  assert (H : forall l refs,
             (exists c, cameraRef refs = Some c /\
                        containerRef refs = Some container /\
                        sameRig (initCamera container) c) ->
             exists c, cameraRef (applyOps refs l) = Some c /\
                       containerRef (applyOps refs l) = Some container /\
                       sameRig (initCamera container) c).
  { induction l as [|op l IH]; intros refs Hrefs; cbn; [exact Hrefs|].
    apply IH. destruct Hrefs as (c & Hc & Hk & Hrig).
    destruct op as [dX dY|delta mX mY]; cbn [applyOp].
    - unfold handlePan. rewrite Hc.
      destruct (Rle_dec _ _); eexists;
        (split; [reflexivity|split; [exact Hk|]]);
        now apply sameRig_setPositionXZ.
    - rewrite (handleZoom_result refs c container delta mX mY Hc Hk).
      eexists. split; [reflexivity|split; [exact Hk|]].
      apply sameRig_setPositionXZ. now apply sameRig_setZoom. }
  apply H. exists (initCamera container).
  split; [reflexivity|split; [reflexivity|apply sameRig_refl]].
Qed.

(** ** The point size *)

Lemma root20 (a : R) : 0 < a -> Rpower (a ^ 20) (5 / 100) = a.
Proof.
  intros Ha. rewrite <- (Rpower_pow 20 a Ha), Rpower_mult.
  replace (INR 20 * (5 / 100)) with 1 by (simpl; lra).
  now apply Rpower_1.
Qed.

(** X22.  Over the whole zoom range the clamp of the point size is idle: the
    size is [15 / zoom^0.05] and lies between 1 and 30 by itself. *)
Theorem pointSize_unclamped (camera : OrthographicCamera) :
  MIN_ZOOM <= zoom camera <= MAX_ZOOM ->
  pointSize camera = PARTICLE_SIZE / Rpower (zoom camera) (5 / 100) /\
  1 <= pointSize camera <= 30.
Proof.
  unfold MIN_ZOOM, MAX_ZOOM. intros Hz.
  assert (Hlo : 1 / 2 <= Rpower (zoom camera) (5 / 100)).
  { eapply Rle_trans; [right; symmetry; apply (root20 (1 / 2)); lra|].
    apply Rle_Rpower_l; [lra|]. split; [apply pow_lt; lra|].
    eapply Rle_trans; [|exact (proj1 Hz)]. simpl. lra. }
  assert (Hhi : Rpower (zoom camera) (5 / 100) <= 15).
  { eapply Rle_trans; [|right; apply (root20 15); lra].
    apply Rle_Rpower_l; [lra|]. split; [lra|].
    eapply Rle_trans; [exact (proj2 Hz)|]. simpl. lra. }
  assert (Hsize : 1 <= PARTICLE_SIZE / Rpower (zoom camera) (5 / 100) <= 30).
  { unfold PARTICLE_SIZE. set (r := Rpower (zoom camera) (5 / 100)) in *.
    assert (Hr : 0 < r) by lra.
    split.
    - apply (Rmult_le_reg_r r); [exact Hr|].
      replace (15 / r * r) with 15 by (field; lra). lra.
    - apply (Rmult_le_reg_r r); [exact Hr|].
      replace (15 / r * r) with 15 by (field; lra). lra. }
  unfold pointSize. rewrite clamp_inside by exact Hsize.
  split; [reflexivity|exact Hsize].
Qed.

End ThreeSceneMore.

(* ===================================================================== *)
(** * Properties of the point buffers                                     *)
(* ===================================================================== *)

Section PointCloudProperties.
Import SpatialWorker PointCloud.

Variable projection : Q -> Q -> option (Q * Q).
Variables DEFAULT_COLOR SELECTION_COLOR HOVER_COLOR : Color.
Variable hoveredId : option string.
Variable selectedCompanies : gset string.

Local Abbreviation loop :=
  (pointLoop projection DEFAULT_COLOR SELECTION_COLOR HOVER_COLOR
             hoveredId selectedCompanies).
Local Abbreviation push :=
  (pushPoint DEFAULT_COLOR SELECTION_COLOR HOVER_COLOR
             hoveredId selectedCompanies).
Local Abbreviation agree :=
  (consistent DEFAULT_COLOR SELECTION_COLOR HOVER_COLOR
              hoveredId selectedCompanies).
Local Abbreviation update :=
  (updatePoints projection DEFAULT_COLOR SELECTION_COLOR HOVER_COLOR
                hoveredId selectedCompanies).

Lemma pushPoint_consistent (bufs : Buffers) (company : Company) (px py : Q) :
  agree bufs -> agree (push bufs company px py).
Proof.
  intros (Hidx & Hpos & Hcol & Hi2t & Ht2i & Hdom).
  set (p := mkCompanyPoint (company_ticker company) px (2 # 10) py).
  unfold consistent, pushPoint.
  cbn [positions colors indexToTicker tickerToIndex projectedCoords index].
  fold p. split; [|split; [|split; [|split; [|split]]]].
  - rewrite length_app. cbn. lia.
  - rewrite flat_map_app, Hpos. reflexivity.
  - rewrite flat_map_app, Hcol. reflexivity.
  - intros i. destruct (decide (index bufs = i)) as [<-|Hne].
    + rewrite lookup_insert_eq, Hidx.
      rewrite list_lookup_middle by reflexivity. reflexivity.
    + rewrite lookup_insert_ne by exact Hne. rewrite Hi2t.
      destruct (decide (i < List.length (projectedCoords bufs))%nat) as [Hlt|Hge].
      * now rewrite lookup_app_l.
      * rewrite (lookup_ge_None_2 (projectedCoords bufs)) by lia.
        rewrite lookup_ge_None_2; [reflexivity|].
        rewrite length_app. cbn. lia.
  - intros t i. destruct (decide (company_ticker company = t)) as [<-|Hne].
    + rewrite lookup_insert_eq. intros [= <-]. rewrite Hidx.
      rewrite list_lookup_middle by reflexivity. reflexivity.
    + rewrite lookup_insert_ne by exact Hne. intros H.
      specialize (Ht2i t i H).
      destruct (projectedCoords bufs !! i) as [q|] eqn:E; [|discriminate].
      rewrite lookup_app_l by (eapply lookup_lt_Some; exact E).
      now rewrite E.
  - intros q Hq. destruct (decide (company_ticker company = ticker q)) as [->|Hne].
    + rewrite lookup_insert_eq. eauto.
    + rewrite lookup_insert_ne by exact Hne. apply Hdom.
      apply elem_of_app in Hq. destruct Hq as [Hq|Hq]; [exact Hq|].
      apply list_elem_of_singleton in Hq. subst q. now cbn in Hne.
Qed.

Lemma pointLoop_consistent (cs : list Company) (bufs : Buffers) :
  agree bufs -> agree (loop cs bufs).
Proof.
  revert bufs. induction cs as [|c cs IH]; intros bufs H; cbn [pointLoop];
    [exact H|].
  destruct (MAX_POINTS <=? index bufs)%nat; [exact H|].
  destruct (longitude c) as [lon|]; [|now apply IH].
  destruct (latitude c) as [lat|]; [|now apply IH].
  destruct (projection lon lat) as [[px py]|]; [|now apply IH].
  apply IH. now apply pushPoint_consistent.
Qed.

Lemma consistent_empty : agree emptyBuffers.
Proof.
  unfold consistent.
  cbn [positions colors indexToTicker tickerToIndex projectedCoords index
       emptyBuffers].
  split; [reflexivity|]. split; [reflexivity|]. split; [reflexivity|].
  split; [|split].
  - intros i. now rewrite lookup_empty.
  - intros t i H. now rewrite lookup_empty in H.
  - intros p Hp. inversion Hp.
Qed.

Lemma pointLoop_coords (cs : list Company) (bufs : Buffers) :
  index bufs = List.length (projectedCoords bufs) ->
  projectedCoords (loop cs bufs)
    = projectedCoords bufs
      ++ firstn (MAX_POINTS - index bufs) (omap (toPoint projection) cs).
Proof.
  revert bufs. induction cs as [|c cs IH]; intros bufs Hidx; cbn [pointLoop omap list_omap].
  - now rewrite firstn_nil, app_nil_r.
  - destruct (MAX_POINTS <=? index bufs)%nat eqn:Emax.
    + apply Nat.leb_le in Emax.
      replace (MAX_POINTS - index bufs)%nat with 0%nat by lia.
      now rewrite app_nil_r.
    + apply Nat.leb_gt in Emax. unfold toPoint at 1.
      destruct (longitude c) as [lon|]; [|now apply IH].
      destruct (latitude c) as [lat|]; [|now apply IH].
      destruct (projection lon lat) as [[px py]|]; [|now apply IH].
      rewrite IH.
      * cbn [pushPoint projectedCoords index].
        replace (MAX_POINTS - index bufs)%nat
          with (S (MAX_POINTS - S (index bufs))) by lia.
        cbn [firstn]. now rewrite <- app_assoc.
      * cbn [pushPoint projectedCoords index]. rewrite length_app. cbn. lia.
Qed.

Lemma update_coords (companiesArray : list Company) :
  projectedCoords (update companiesArray)
    = firstn MAX_POINTS
        (omap (toPoint projection) (List.filter hasLocation companiesArray)).
Proof.
  unfold updatePoints. rewrite pointLoop_coords by reflexivity.
  cbn [projectedCoords index emptyBuffers app].
  now rewrite Nat.sub_0_r.
Qed.

Lemma update_agree (companiesArray : list Company) : agree (update companiesArray).
Proof.
  unfold updatePoints. apply pointLoop_consistent, consistent_empty.
Qed.

(** X23.  What is drawn: the first [MAX_POINTS] companies, in input order, that
    have a non-zero latitude and longitude and that the projection
    accepts; the dispatched count is their number. *)
Theorem updatePoints_visible (companiesArray : list Company) :
  projectedCoords (update companiesArray)
    = firstn MAX_POINTS
        (omap (toPoint projection) (List.filter hasLocation companiesArray)) /\
  index (update companiesArray)
    = List.length (projectedCoords (update companiesArray)) /\
  (index (update companiesArray) <= MAX_POINTS)%nat.
Proof.
  pose proof (update_coords companiesArray) as Hc.
  pose proof (proj1 (update_agree companiesArray)) as Hi.
  split; [exact Hc|split; [exact Hi|]].
  rewrite Hi, Hc, length_firstn. apply Nat.le_min_l.
Qed.


(** X25.  A drawn point comes from a company of the input that has both
    coordinates, neither of them 0, and sits where the projection puts that
    company, at height 0.2. *)
Theorem updatePoints_origin (companiesArray : list Company) (p : CompanyPoint) :
  In p (projectedCoords (update companiesArray)) ->
  exists company lon lat,
    In company companiesArray /\
    company_ticker company = ticker p /\
    longitude company = Some lon /\ latitude company = Some lat /\
    ~ (lon == 0)%Q /\ ~ (lat == 0)%Q /\
    projection lon lat = Some (x p, z p) /\
    y p = (2 # 10)%Q.
Proof.
  intros Hin.
  rewrite (update_coords companiesArray) in Hin.
  apply list_elem_of_In in Hin. apply (subseteq_take MAX_POINTS) in Hin.
  apply list_elem_of_omap in Hin. destruct Hin as (c & Hc & Hp).
  apply list_elem_of_In, filter_In in Hc. destruct Hc as [Hc Hloc].
  unfold toPoint in Hp.
  destruct (longitude c) as [lon|] eqn:Elon; [|discriminate].
  destruct (latitude c) as [lat|] eqn:Elat; [|discriminate].
  destruct (projection lon lat) as [[px py]|] eqn:Eproj; [|discriminate].
  injection Hp as <-.
  unfold hasLocation in Hloc. rewrite Elon, Elat in Hloc. cbn [truthy] in Hloc.
  apply Bool.andb_true_iff in Hloc. destruct Hloc as [Hlat Hlon].
  apply Bool.negb_true_iff in Hlat, Hlon.
  exists c, lon, lat. cbn [ticker x y z].
  repeat split; try assumption; try reflexivity.
  - intros H. apply Qeq_bool_iff in H. congruence.
  - intros H. apply Qeq_bool_iff in H. congruence.
Qed.

Lemma omap_toPoint_tickers (cs : list Company) :
  ticker <$> omap (toPoint projection) cs `sublist_of` company_ticker <$> cs.
Proof.
  induction cs as [|c cs IH]; cbn [omap list_omap fmap list_fmap]; [constructor|].
  destruct (toPoint projection c) as [p|] eqn:E.
  - cbn [fmap list_fmap].
    assert (Ht : ticker p = company_ticker c).
    { unfold toPoint in E.
      destruct (longitude c), (latitude c); try discriminate.
      destruct (projection _ _) as [[? ?]|]; [|discriminate].
      now injection E as <-. }
    rewrite Ht. now apply sublist_skip.
  - now apply sublist_cons.
Qed.

Lemma filter_tickers (cs : list Company) :
  company_ticker <$> List.filter hasLocation cs `sublist_of` company_ticker <$> cs.
Proof.
  induction cs as [|c cs IH]; cbn [List.filter fmap list_fmap]; [constructor|].
  destruct (hasLocation c); cbn [fmap list_fmap];
    [now apply sublist_skip|now apply sublist_cons].
Qed.

(** X26.  When the companies carry distinct tickers, the two index maps are
    inverse to each other on the drawn points: the point at index [i] has
    the ticker [indexToTicker] gives for [i], and [tickerToIndex] leads
    from that ticker back to [i]. *)
Theorem updatePoints_index_round_trip
    (companiesArray : list Company) (i : nat) (p : CompanyPoint) :
  NoDup (company_ticker <$> companiesArray) ->
  projectedCoords (update companiesArray) !! i = Some p ->
  indexToTicker (update companiesArray) !! i = Some (ticker p) /\
  tickerToIndex (update companiesArray) !! ticker p = Some i.
Proof.
  intros Hnd Hp.
  destruct (update_agree companiesArray)
    as (_ & _ & _ & Hi2t & Ht2i & Hdom).
  split; [now rewrite Hi2t, Hp|].
  assert (Hnd' : NoDup (ticker <$> projectedCoords (update companiesArray))).
  { rewrite (update_coords companiesArray).
    apply (sublist_NoDup _ (company_ticker <$> companiesArray)); [exact Hnd|].
    etransitivity; [apply fmap_sublist, sublist_take|].
    etransitivity; [apply omap_toPoint_tickers|apply filter_tickers]. }
  destruct (Hdom p) as [j Hj]; [eapply list_elem_of_lookup_2; exact Hp|].
  rewrite Hj. f_equal.
  pose proof (Ht2i _ _ Hj) as Hpj.
  rewrite <- list_lookup_fmap in Hpj.
  assert (Hpi : (ticker <$> projectedCoords (update companiesArray)) !! i
                = Some (ticker p)) by now rewrite list_lookup_fmap, Hp.
  exact (NoDup_lookup _ _ _ _ Hnd' Hpj Hpi).
Qed.

End PointCloudProperties.

(* ===================================================================== *)
(** * Properties of the drag-to-query path                                *)
(* ===================================================================== *)

Section MapRendererProperties.
Import SpatialWorker MapRenderer.

Lemma between_min_max (a b v : Q) :
  (Qmin a b <= v /\ v <= Qmax a b)%Q <->
  ((a <= v /\ v <= b) \/ (b <= v /\ v <= a))%Q.
Proof.
  destruct (Q.min_spec a b) as [[Hlt Hmin]|[Hle Hmin]];
    destruct (Q.max_spec a b) as [[Hlt' Hmax]|[Hle' Hmax]];
    rewrite Hmin, Hmax; split; intros H; lra.
Qed.


(** With the worker running, the path from [performSpatialSelection] to
    the worker adds nothing and drops nothing: the shortcut for an empty
    coordinate list and the manager give the worker's own answer.  With no
    worker, every request gives the empty list. *)
Theorem mutationFn_answers (request : SelectionRequest)
    (allCoords : list CompanyPoint) :
  mutationFn (Some spatialOps) request allCoords = workerAnswer request allCoords /\
  mutationFn None request allCoords = [].
Proof.
  destruct allCoords as [|c l].
  - split; [|reflexivity]. destruct request; cbn [mutationFn workerAnswer].
    + reflexivity.
    + reflexivity.
    + unfold selectInPolygon. now destruct (_ <? _)%nat.
  - split; destruct request; reflexivity.
Qed.

(** X27.  The rectangle request of [performSelection]: its corners are
    built with [Math.min] and [Math.max] of the two world points, so,
    whichever of the two is the start, the request that goes through
    [performSpatialSelection] and the manager to a running worker is
    answered with the points of the coordinate list that lie between the
    two points on both axes; with no worker the answer is empty. *)
Theorem rect_request_selects_between
    (startX startZ endX endZ : Q) (allCoords : list CompanyPoint)
    (p : CompanyPoint) :
  (In p (mutationFn (Some spatialOps)
           (RectangleRequest (rectMin startX startZ endX endZ)
                             (rectMax startX startZ endX endZ))
           allCoords) <->
   In p allCoords /\
   ((startX <= x p /\ x p <= endX) \/ (endX <= x p /\ x p <= startX))%Q /\
   ((startZ <= z p /\ z p <= endZ) \/ (endZ <= z p /\ z p <= startZ))%Q) /\
  mutationFn None
    (RectangleRequest (rectMin startX startZ endX endZ)
                      (rectMax startX startZ endX endZ))
    allCoords = [].
Proof.
  split.
  - rewrite (proj1 (mutationFn_answers _ allCoords)). cbn [workerAnswer].
    unfold selectInRectangle.
    rewrite selectLoop_filter, filter_In, inRectangle_true.
    cbn [rectMin rectMax Point2D.x Point2D.y].
    now rewrite !between_min_max.
  - apply mutationFn_answers.
Qed.

End MapRendererProperties.

(* ===================================================================== *)
(** * Properties of the selection statistics                              *)
(* ===================================================================== *)

Section SelectionStatsProperties.
Import SelectionStats.
Local Open Scope Q_scope.

Lemma insertByClose_Permutation (a : MarketRecord) (l : list MarketRecord) :
  insertByClose a l ≡ₚ a :: l.
Proof.
  induction l as [|b l IH]; cbn [insertByClose]; [reflexivity|].
  destruct (Qle_bool (close b) (close a)); [reflexivity|].
  rewrite IH. apply Permutation_swap.
Qed.

Lemma sortByClose_Permutation (l : list MarketRecord) : sortByClose l ≡ₚ l.
Proof.
  induction l as [|a l IH]; cbn [sortByClose fold_right]; [reflexivity|].
  rewrite insertByClose_Permutation. now apply Permutation_cons.
Qed.

Lemma insertByClose_sorted (a : MarketRecord) (l : list MarketRecord) :
  StronglySorted closesAbove l -> StronglySorted closesAbove (insertByClose a l).
Proof.
  induction 1 as [|b l Hs IH Hb]; cbn [insertByClose].
  - repeat constructor.
  - destruct (Qle_bool (close b) (close a)) eqn:E.
    + apply Qle_bool_iff in E. constructor; [now constructor|].
      constructor; [exact E|].
      eapply Forall_impl; [exact Hb|]. intros c Hc. unfold closesAbove in *.
      eapply Qle_trans; eassumption.
    + constructor; [exact IH|].
      rewrite insertByClose_Permutation. constructor; [|exact Hb].
      unfold closesAbove.
      destruct (Qlt_le_dec (close b) (close a)) as [Hlt|Hle]; [|exact Hle].
      apply Qlt_le_weak, Qle_bool_iff in Hlt. congruence.
Qed.

Lemma sortByClose_sorted (l : list MarketRecord) :
  StronglySorted closesAbove (sortByClose l).
Proof.
  induction l as [|a l IH]; cbn [sortByClose fold_right]; [constructor|].
  now apply insertByClose_sorted.
Qed.

Lemma top_companies_eq (companies : list MarketRecord) :
  StateTypes.top_companies (calculateSelectionStats companies)
    = Some (List.map toTopCompany
              (firstn 5 (sortByClose (List.filter hasClose companies)))).
Proof. destruct companies; reflexivity. Qed.

(** X29.  The listed top companies are the five best closes (all of them, when
    there are fewer) among the records that have a close, best first:
    no record left out closes above a listed one. *)
Theorem top_companies_are_the_best (companies : list MarketRecord) :
  exists chosen rest,
    StateTypes.top_companies (calculateSelectionStats companies)
      = Some (List.map toTopCompany chosen) /\
    List.filter hasClose companies ≡ₚ chosen ++ rest /\
    List.length chosen
      = Nat.min 5 (List.length (List.filter hasClose companies)) /\
    StronglySorted closesAbove chosen /\
    (forall c r, c ∈ chosen -> r ∈ rest -> close r <= close c).
Proof.
  set (valid := List.filter hasClose companies).
  exists (firstn 5 (sortByClose valid)), (skipn 5 (sortByClose valid)).
  pose proof (sortByClose_sorted valid) as Hsorted.
  pose proof (sortByClose_Permutation valid) as Hperm.
  rewrite <- (firstn_skipn 5 (sortByClose valid)) in Hsorted.
  split; [apply top_companies_eq|]. split; [|split; [|split]].
  - now rewrite firstn_skipn.
  - rewrite length_firstn. now rewrite (Permutation_length Hperm).
  - now apply StronglySorted_app_1_l in Hsorted.
  - intros c r Hc Hr.
    exact (StronglySorted_app_1_elem_of _ _ _ c r Hsorted Hc Hr).
Qed.

End SelectionStatsProperties.

(* ===================================================================== *)
(** * Instances of the properties above                                   *)
(* ===================================================================== *)

Section MoreInstances.
Import Samples.

(** ** Spatial worker *)

Lemma selectInRectangle_inverted_witness :
  (SpatialWorker.Point2D.x origin2D
     < SpatialWorker.Point2D.x (SpatialWorker.Point2D.mk 3 4) \/
   SpatialWorker.Point2D.y origin2D
     < SpatialWorker.Point2D.y (SpatialWorker.Point2D.mk 3 4))%Q /\
  SpatialWorker.selectInRectangle (SpatialWorker.Point2D.mk 3 4) origin2D somePoints
    = [].
Proof.
  assert (H : (SpatialWorker.Point2D.x origin2D
                 < SpatialWorker.Point2D.x (SpatialWorker.Point2D.mk 3 4) \/
               SpatialWorker.Point2D.y origin2D
                 < SpatialWorker.Point2D.y (SpatialWorker.Point2D.mk 3 4))%Q)
    by (left; reflexivity).
  split; [exact H|].
  exact (selectInRectangle_inverted (SpatialWorker.Point2D.mk 3 4) origin2D
           somePoints H).
Defined.

Lemma selectInCircle_nested_witness :
  (0 <= 1)%Q /\ (1 <= 5)%Q /\
  SpatialWorker.selectInCircle origin2D 1
    (SpatialWorker.selectInCircle origin2D 5 somePoints)
  = SpatialWorker.selectInCircle origin2D 1 somePoints.
Proof.
  assert (H0 : (0 <= 1)%Q) by discriminate.
  assert (H1 : (1 <= 5)%Q) by discriminate.
  split; [exact H0|]. split; [exact H1|].
  exact (selectInCircle_nested origin2D 1 5 somePoints H0 H1).
Defined.

Lemma selectInPolygon_outside_height_witness :
  ((forall v, In v squarePolygon ->
              (SpatialWorker.Point2D.y v <= SpatialWorker.z pointB)%Q) \/
   (forall v, In v squarePolygon ->
              (SpatialWorker.z pointB < SpatialWorker.Point2D.y v)%Q)) /\
  ~ In pointB (SpatialWorker.selectInPolygon squarePolygon somePoints).
Proof.
  assert (H : (forall v, In v squarePolygon ->
                 (SpatialWorker.Point2D.y v <= SpatialWorker.z pointB)%Q) \/
              (forall v, In v squarePolygon ->
                 (SpatialWorker.z pointB < SpatialWorker.Point2D.y v)%Q)).
  { right. intros v [<-|[<-|[<-|[<-|[]]]]]; reflexivity. }
  split; [exact H|].
  exact (selectInPolygon_outside_height squarePolygon somePoints pointB H).
Defined.


(** ** Region colouring *)

Lemma assignStateColors_index_le_neighbors_witness :
  StateColors.assignStateColors threeStates !! "Florida"%string = Some 2%nat /\
  (2 <= StateColors.neighborCount "Florida")%nat.
Proof.
  assert (H : StateColors.assignStateColors threeStates !! "Florida"%string
              = Some 2%nat) by (vm_compute; reflexivity).
  split; [exact H|].
  exact (assignStateColors_index_le_neighbors threeStates "Florida" 2 H).
Defined.

(** The territory is in no list and on no prototype: it gets a palette
    colour, by the hash. *)
Lemma getStateColor_palette_witness :
  StateColors.inherited "Puerto Rico" = false /\
  exists color,
    StateColors.getStateColor (StateColors.assignStateColors featureNames)
                              "Puerto Rico" = Some color /\
    color ∈ StateColors.stateColorPalette.
Proof.
  split; [reflexivity|].
  exact (proj1 (getStateColor_palette featureNames "Puerto Rico") eq_refl).
Defined.

(** ** Map slice *)

Lemma store_zoom_in_range_witness :
  forallb (fun a => negb (MapSlice.writesZoom a)) someCameraActions = true /\
  ((1 # 10) <= MapSlice.zoom
                 (MapSlice.camera
                    (MapSlice.dispatchAll (fun q => q) MapSlice.initialState
                                          someCameraActions))
   <= 10)%Q.
Proof.
  assert (H : forallb (fun a => negb (MapSlice.writesZoom a)) someCameraActions
              = true) by reflexivity.
  split; [exact H|].
  exact (store_zoom_in_range (fun q => q) someCameraActions H).
Defined.

Lemma resetCamera_absorbs_witness :
  forallb MapSlice.cameraAction someCameraActions = true /\
  MapSlice.resetCamera
    (MapSlice.dispatchAll (fun q => q) MapSlice.initialState someCameraActions)
  = MapSlice.resetCamera MapSlice.initialState.
Proof.
  assert (H : forallb MapSlice.cameraAction someCameraActions = true)
    by reflexivity.
  split; [exact H|].
  exact (resetCamera_absorbs (fun q => q) MapSlice.initialState
           someCameraActions H).
Defined.

(** ** Camera *)

Lemma initial_zoom_in_limits :
  (ThreeScene.MIN_ZOOM
     <= ThreeScene.THREE.zoom (ThreeScene.initCamera squareContainer)
     <= ThreeScene.MAX_ZOOM)%R.
Proof.
  cbn [ThreeScene.THREE.zoom ThreeScene.initCamera].
  unfold ThreeScene.MIN_ZOOM, ThreeScene.MAX_ZOOM. lra.
Qed.

Lemma pointSize_unclamped_witness :
  (ThreeScene.MIN_ZOOM
     <= ThreeScene.THREE.zoom (ThreeScene.initCamera squareContainer)
     <= ThreeScene.MAX_ZOOM)%R /\
  ThreeScene.pointSize (ThreeScene.initCamera squareContainer)
    = (ThreeScene.PARTICLE_SIZE
       / Rpower (ThreeScene.THREE.zoom (ThreeScene.initCamera squareContainer))
                (5 / 100))%R /\
  (1 <= ThreeScene.pointSize (ThreeScene.initCamera squareContainer) <= 30)%R.
Proof.
  split; [exact initial_zoom_in_limits|].
  exact (pointSize_unclamped (ThreeScene.initCamera squareContainer)
           initial_zoom_in_limits).
Defined.

(** ** Point buffers *)

Lemma someCompanies_drawn :
  PointCloud.projectedCoords
    (PointCloud.updatePoints plainProjection white green orange
                             (Some "MSFT"%string) {[ "AAPL"%string ]}
                             someCompanies)
  = [SpatialWorker.mkCompanyPoint "AAPL" 4 (2 # 10) 3;
     SpatialWorker.mkCompanyPoint "MSFT" (-7) (2 # 10) 10].
Proof. vm_compute. reflexivity. Qed.

Lemma updatePoints_origin_witness :
  In (SpatialWorker.mkCompanyPoint "MSFT" (-7) (2 # 10) 10)
     (PointCloud.projectedCoords
        (PointCloud.updatePoints plainProjection white green orange
                                 (Some "MSFT"%string) {[ "AAPL"%string ]}
                                 someCompanies)) /\
  exists company lon lat,
    In company someCompanies /\
    PointCloud.company_ticker company
      = SpatialWorker.ticker (SpatialWorker.mkCompanyPoint "MSFT" (-7) (2 # 10) 10) /\
    PointCloud.longitude company = Some lon /\
    PointCloud.latitude company = Some lat /\
    ~ (lon == 0)%Q /\ ~ (lat == 0)%Q /\
    plainProjection lon lat
      = Some (SpatialWorker.x (SpatialWorker.mkCompanyPoint "MSFT" (-7) (2 # 10) 10),
              SpatialWorker.z (SpatialWorker.mkCompanyPoint "MSFT" (-7) (2 # 10) 10)) /\
    SpatialWorker.y (SpatialWorker.mkCompanyPoint "MSFT" (-7) (2 # 10) 10)
      = (2 # 10)%Q.
Proof.
  assert (H : In (SpatialWorker.mkCompanyPoint "MSFT" (-7) (2 # 10) 10)
                (PointCloud.projectedCoords
                   (PointCloud.updatePoints plainProjection white green orange
                                            (Some "MSFT"%string) {[ "AAPL"%string ]}
                                            someCompanies))).
  { rewrite someCompanies_drawn. right. left. reflexivity. }
  split; [exact H|].
  exact (updatePoints_origin plainProjection white green orange
           (Some "MSFT"%string) {[ "AAPL"%string ]} someCompanies _ H).
Defined.

Lemma updatePoints_index_round_trip_witness :
  NoDup (PointCloud.company_ticker <$> someCompanies) /\
  PointCloud.projectedCoords
    (PointCloud.updatePoints plainProjection white green orange
                             (Some "MSFT"%string) {[ "AAPL"%string ]}
                             someCompanies) !! 1%nat
    = Some (SpatialWorker.mkCompanyPoint "MSFT" (-7) (2 # 10) 10) /\
  PointCloud.indexToTicker
    (PointCloud.updatePoints plainProjection white green orange
                             (Some "MSFT"%string) {[ "AAPL"%string ]}
                             someCompanies) !! 1%nat
    = Some (SpatialWorker.ticker
              (SpatialWorker.mkCompanyPoint "MSFT" (-7) (2 # 10) 10)) /\
  PointCloud.tickerToIndex
    (PointCloud.updatePoints plainProjection white green orange
                             (Some "MSFT"%string) {[ "AAPL"%string ]}
                             someCompanies)
    !! SpatialWorker.ticker (SpatialWorker.mkCompanyPoint "MSFT" (-7) (2 # 10) 10)
    = Some 1%nat.
Proof.
  assert (H1 : NoDup (PointCloud.company_ticker <$> someCompanies)).
  { apply distinct_NoDup. reflexivity. }
  assert (H2 : PointCloud.projectedCoords
                 (PointCloud.updatePoints plainProjection white green orange
                                          (Some "MSFT"%string) {[ "AAPL"%string ]}
                                          someCompanies) !! 1%nat
               = Some (SpatialWorker.mkCompanyPoint "MSFT" (-7) (2 # 10) 10)).
  { rewrite someCompanies_drawn. reflexivity. }
  split; [exact H1|]. split; [exact H2|].
  exact (updatePoints_index_round_trip plainProjection white green orange
           (Some "MSFT"%string) {[ "AAPL"%string ]} someCompanies 1 _ H1 H2).
Defined.

End MoreInstances.
